(** * rasp-utilities / email: unread-mail checker and status reporter

    A shallow embedding of [email_check.py] (the checker: account handlers,
    registry, result store writer, command line) and of [show_status.py]
    (the status reporter), together with the properties of the design note
    that can be stated over it.

    Conventions of the embedding.
    - Python values that come from or go to JSON files are terms of [json].
      Floating-point numbers are left out: no function below computes with
      them.
    - A Python exception is a term of [exn]; fallible code returns a
      [result].  Code with effects (files, standard output, the log, the
      network) is a function in the monad [M]: it threads a [world] and
      returns a [result], so effects performed before an exception is
      raised stay performed.
    - Library and network calls (imaplib, the Gmail client, keyring, getpass,
      the ISO-8601 codec of [datetime]) are not part of the repository.
      Their outcomes are read from the oracles gathered in [env], which
      every function that depends on them takes as its first argument. *)

From stdpp Require Import gmap strings list pretty.
From Stdlib Require Import ZArith Lia.

Open Scope Z_scope.
Set Warnings "-register-all".

(** ** Exceptions and results *)

Inductive exn : Type :=
| KeyError
| TypeError
| IndexError
| AttributeError
| ValueError
| JSONDecodeError
| UnicodeDecodeError
| OSError
| LibraryError (what : string).

Inductive result (A : Type) : Type :=
| Return (a : A)
| Raise (e : exn).

Arguments Return {A} a.
Arguments Raise {A} e.

Definition is_return {A} (r : result A) : bool :=
  match r with Return _ => true | Raise _ => false end.

(** ** Python values read from and written to JSON *)

(** [str(n)] for an [int] *)
Definition str_int (n : Z) : string := pretty n.

Inductive json : Type :=
| JNull
| JBool (b : bool)
| JInt (z : Z)
| JStr (s : string)
| JList (l : list json)
| JDict (d : list (string * json)).

(** A [dict] decoded from JSON has [str] keys and keeps their order. *)
Fixpoint assoc {V : Type} (k : string) (d : list (string * V)) : option V :=
  match d with
  | [] => None
  | (k', v) :: d' => if String.eqb k' k then Some v else assoc k d'
  end.

(** [d[k] = v] on such a dict: an existing key keeps its place. *)
Fixpoint assoc_set {V : Type} (k : string) (v : V) (d : list (string * V))
  : list (string * V) :=
  match d with
  | [] => [(k, v)]
  | (k', v') :: d' =>
      if String.eqb k' k then (k', v) :: d' else (k', v') :: assoc_set k v d'
  end.

(** [v[k]] for a [str] subscript [k]. *)
Definition getitem (v : json) (k : string) : result json :=
  match v with
  | JDict d =>
      match assoc k d with
      | Some x => Return x
      | None => Raise KeyError
      end
  | _ => Raise TypeError
  end.

(** [v.get(k, default)]: only a [dict] has the method. *)
Definition get_default (v : json) (k : string) (default : json) : result json :=
  match v with
  | JDict d =>
      match assoc k d with
      | Some x => Return x
      | None => Return default
      end
  | _ => Raise AttributeError
  end.

(** [v.get(k)] *)
Definition get (v : json) (k : string) : result json := get_default v k JNull.

(** [v == s] for a [str] literal [s]. *)
Definition eq_str (v : json) (s : string) : bool :=
  match v with
  | JStr s' => String.eqb s' s
  | _ => false
  end.

(** Truth value of [v] in a condition. *)
Definition truthy (v : json) : bool :=
  match v with
  | JNull => false
  | JBool b => b
  | JInt z => negb (z =? 0)
  | JStr s => negb (String.eqb s "")
  | JList l => match l with [] => false | _ => true end
  | JDict d => match d with [] => false | _ => true end
  end.

(** [len(v)] *)
Definition py_len (v : json) : result Z :=
  match v with
  | JList l => Return (Z.of_nat (length l))
  | JDict d => Return (Z.of_nat (length d))
  | JStr s => Return (Z.of_nat (String.length s))
  | _ => Raise TypeError
  end.

(** The characters of a [str], each as a [str] of length one. *)
Fixpoint chars (s : string) : list json :=
  match s with
  | EmptyString => []
  | String c s' => JStr (String c EmptyString) :: chars s'
  end.

(** The values [for x in v] binds [x] to. *)
Definition py_iter (v : json) : result (list json) :=
  match v with
  | JList l => Return l
  | JDict d => Return (map (λ kv, JStr (fst kv)) d)
  | JStr s => Return (chars s)
  | _ => Raise TypeError
  end.

(** [v[0]] *)
Definition getitem0 (v : json) : result json :=
  match v with
  | JList l => match l with x :: _ => Return x | [] => Raise IndexError end
  | JStr s => match chars s with x :: _ => Return x | [] => Raise IndexError end
  | JDict _ => Raise KeyError
  | _ => Raise TypeError
  end.

(** ** Dictionaries built by the program *)

(** The hashable values among [json]: what can be a key of a [dict]. *)
Inductive key : Type :=
| KNone
| KBool (b : bool)
| KInt (z : Z)
| KStr (s : string).

(** Hashing [v] to use it as a key: a [list] and a [dict] are unhashable. *)
Definition hashable (v : json) : result key :=
  match v with
  | JNull => Return KNone
  | JBool b => Return (KBool b)
  | JInt z => Return (KInt z)
  | JStr s => Return (KStr s)
  | JList _ | JDict _ => Raise TypeError
  end.

(** Equality of keys is Python's [==], under which [True == 1] and
    [False == 0]. *)
Definition key_eqb (a b : key) : bool :=
  match a, b with
  | KNone, KNone => true
  | KBool x, KBool y => Bool.eqb x y
  | KInt x, KInt y => x =? y
  | KStr x, KStr y => String.eqb x y
  | KBool x, KInt y | KInt y, KBool x => y =? (if x then 1 else 0)
  | _, _ => false
  end.

(** A [dict], in insertion order. *)
Definition dict (V : Type) : Type := list (key * V).


(** [d[k] = v]: an existing entry keeps its key object and its place. *)
Fixpoint dict_set {V : Type} (k : key) (v : V) (d : dict V) : dict V :=
  match d with
  | [] => [(k, v)]
  | (k', v') :: d' =>
      if key_eqb k' k then (k', v) :: d' else (k', v') :: dict_set k v d'
  end.

(** [str(k)], as an f-string renders a key. *)
Definition str_key (k : key) : string :=
  match k with
  | KNone => "None"
  | KBool b => if b then "True" else "False"
  | KInt z => str_int z
  | KStr s => s
  end.

(** The key [json.dump] writes for [k]. *)
Definition json_key (k : key) : string :=
  match k with
  | KNone => "null"
  | KBool b => if b then "true" else "false"
  | KInt z => str_int z
  | KStr s => s
  end.

(** The members [json.dump] writes for a [dict] of counts, in order: the
    keys become [str]. *)
Definition written_counts (results : dict Z) : list (string * json) :=
  map (λ kv, (json_key (fst kv), JInt (snd kv))) results.

(** What [json.load] makes of the members of an object: of two members
    with the same key the later one wins, at the place of the earlier. *)
Definition load_members (members : list (string * json)) : list (string * json) :=
  fold_left (λ d kv, assoc_set (fst kv) (snd kv) d) members [].

(** What [json.load] returns for the counts [json.dump] wrote. *)
Definition loaded_counts (results : dict Z) : list (string * json) :=
  load_members (written_counts results).

(** ** The world the programs run in *)

(** A file is modelled by what reading it as JSON does.  [FJson j] is a
    file that [json.load] decodes to [j].  [FInvalid] holds text that is
    not JSON: [json.load] raises [json.JSONDecodeError].  [FNotText] holds
    bytes that are not text in the encoding [open] uses: reading it raises
    [UnicodeDecodeError], before anything is parsed. *)
Inductive file : Type :=
| FJson (j : json)
| FInvalid
| FNotText.

Inductive level : Type := INFO | WARNING | ERROR.

Inductive gmail_op : Type :=
| TokenLoad | Refresh | AuthFlow | TokenDump | Build | ListUnread.

Inductive imap_op : Type :=
| Connect | Login | Select | Search | Logout.

(** What a run does that can be observed from outside, in order.  A log
    record keeps its level and its format; the values interpolated into it
    are not rendered. *)
Inductive event : Type :=
| EvPrint (line : string)
| EvPrintJson (doc : json)                 (* print(json.dumps(doc)) *)
| EvPrintExn (prefix : string) (e : exn)   (* print(f"<prefix>{str(e)}") *)
| EvPrintFmt (format : string) (args : list json)
    (* print of an f-string whose interpolated values are kept as they are *)
| EvLog (lvl : level) (msg : string)
| EvMkdir (path : string)
| EvChmod (path : string) (mode : Z)
| EvGmail (email : json) (op : gmail_op)
| EvImap (account : json) (op : imap_op)
| EvKeyringGet (email : json)
| EvKeyringSet (email : json)
| EvPrompt.

(** The file system is taken to be reliable: creating a directory, writing
    a file and changing its mode do not fail, and a file that exists can be
    opened.  [ticks] counts the readings of the clock so far. *)
Record world : Type := World {
  fs : gmap string file;
  ticks : nat
}.

(** What a computation leaves behind: the world after it, the events it
    emitted, and the value it returned or the exception it raised. *)
Record reply (A : Type) : Type := Reply {
  after : world;
  emitted : list event;
  value : result A
}.

Arguments Reply {A} after emitted value.
Arguments after {A} r.
Arguments emitted {A} r.
Arguments value {A} r.

Definition M (A : Type) : Type := world → reply A.

Definition ret {A} (a : A) : M A := λ w, Reply w [] (Return a).

Definition raise {A} (e : exn) : M A := λ w, Reply w [] (Raise e).

(** A pure computation that may raise. *)
Definition lift {A} (r : result A) : M A := λ w, Reply w [] r.

Definition bind {A B} (m : M A) (k : A → M B) : M B :=
  λ w, match m w with
       | Reply w' evs (Return a) =>
           match k a w' with
           | Reply w'' evs' r => Reply w'' (evs ++ evs') r
           end
       | Reply w' evs (Raise e) => Reply w' evs (Raise e)
       end.

(** [try: m / except Exception as e: h e]: what [m] did before it raised
    stays done. *)
Definition try_except {A} (m : M A) (h : exn → M A) : M A :=
  λ w, match m w with
       | Reply w' evs (Return a) => Reply w' evs (Return a)
       | Reply w' evs (Raise e) =>
           match h e w' with
           | Reply w'' evs' r => Reply w'' (evs ++ evs') r
           end
       end.

Notation "x <- m ;; k" := (bind m (λ x, k))
  (at level 100, m at next level, right associativity,
   format "'[v' x  <-  m  ;;  '/' k ']'").
Notation "m ;;; k" := (bind m (λ _, k))
  (at level 100, right associativity,
   format "'[v' m  ;;;  '/' k ']'").

Definition emit (e : event) : M unit := λ w, Reply w [e] (Return tt).

Definition print (line : string) : M unit := emit (EvPrint line).
Definition log (lvl : level) (msg : string) : M unit := emit (EvLog lvl msg).

(** [path.exists()] *)
Definition exists_ (path : string) : M bool :=
  λ w, Reply w [] (Return (bool_decide (is_Some (fs w !! path)))).

(** [with open(path, "r") as f: json.load(f)] *)
Definition json_load (path : string) : M json :=
  λ w, Reply w []
         match fs w !! path with
         | Some (FJson j) => Return j
         | Some FInvalid => Raise JSONDecodeError
         | Some FNotText => Raise UnicodeDecodeError
         | None => Raise OSError
         end.

(** [with open(path, "w") as f: json.dump(j, f, indent=4)], for a [j] that
    [json.load] gives back as it is. *)
Definition json_dump (path : string) (j : json) : M unit :=
  λ w, Reply {| fs := <[path := FJson j]> (fs w); ticks := ticks w |} []
         (Return tt).

(** [for x in l: body x] *)
Fixpoint for_each {A} (l : list A) (body : A → M unit) : M unit :=
  match l with
  | [] => ret tt
  | x :: l' => body x ;;; for_each l' body
  end.

(** [p / q] on paths *)
Definition path_join (p q : string) : string := p +:+ "/" +:+ q.
Infix "//" := path_join (at level 40, left associativity).

(** ** [datetime] *)

(** [datetime.timedelta], normalised as Python keeps it:
    [0 <= seconds < 86400] and [0 <= microseconds < 10^6]; only [days]
    carries the sign. *)
Record timedelta : Type := Timedelta {
  days : Z;
  seconds : Z;
  microseconds : Z
}.

Definition us_per_second : Z := 1000000.
Definition us_per_day : Z := 86400 * us_per_second.

(** A [datetime] is a point on the microsecond time line, naive or aware of
    a time zone; its calendar fields are only needed by the library codec.
    [instant] of a naive value counts local wall-clock microseconds. *)
Record datetime : Type := Datetime {
  instant : Z;
  aware : bool
}.

(** What [datetime.now()] returns: always naive. *)
Definition naive (t : Z) : datetime := {| instant := t; aware := false |}.

(** [timedelta(microseconds=us)] *)
Definition timedelta_of_us (us : Z) : timedelta :=
  {| days := us / us_per_day;
     seconds := (us mod us_per_day) / us_per_second;
     microseconds := us mod us_per_second |}.

(** [a - b]: Python refuses to subtract a naive and an aware [datetime]. *)
Definition datetime_sub (a b : datetime) : result timedelta :=
  if Bool.eqb (aware a) (aware b)
  then Return (timedelta_of_us (instant a - instant b))
  else Raise TypeError.

(** ** What lies outside the repository *)

(** An OAuth token bundle, as far as [authenticate] looks at it. *)
Record credentials : Type := Credentials {
  valid : bool;
  expired : bool;
  refresh_token : bool     (* whether the attribute is set *)
}.

(** Outcomes of the library and network calls of one Gmail account, each
    the outcome the call has if the run reaches it. *)
Record gmail_outcomes : Type := GmailOutcomes {
  token_file : option (result credentials);
    (* [None]: no token file; otherwise what [pickle.load] does *)
  refresh : result unit;             (* creds.refresh(Request()) *)
  client_secret_exists : bool;       (* credentials.json is there *)
  auth_flow : result credentials;    (* the interactive authorization flow *)
  token_dump : result unit;          (* writing the token file *)
  build : result unit;               (* build("gmail", "v1", ...) *)
  list_unread : result json          (* ...list(userId, q).execute() *)
}.

(** Outcomes of the library and network calls of one IMAP account. *)
Record imap_outcomes : Type := ImapOutcomes {
  connect : result unit;                     (* imaplib.IMAP4_SSL(...) *)
  keyring_get : result (option string);      (* keyring.get_password *)
  getpass : result string;                   (* getpass.getpass() *)
  keyring_set : result unit;                 (* keyring.set_password *)
  login : result unit;
  select : result unit;
  search : result (string * list (option string));
    (* (status, response); an element of the response is bytes or None *)
  logout : result unit
}.

Record env : Type := Env {
  home : string;                             (* Path.home() *)
  clock : nat → Z;                           (* successive datetime.now() *)
  isoformat : Z → string;                    (* naive datetime to ISO-8601 *)
  fromisoformat : string → result datetime;
  strftime : datetime → string;              (* "%Y-%m-%d %H:%M:%S" *)
  gmail : json → gmail_outcomes;             (* by account email *)
  imap : json → imap_outcomes;               (* by account descriptor *)
  answer : json → result string              (* input(...) for an account *)
}.

(** [datetime.now()] *)
Definition now (E : env) : M Z :=
  λ w, Reply {| fs := fs w; ticks := S (ticks w) |} []
         (Return (clock E (ticks w))).

(** [b.split()] on bytes: the maximal runs of bytes that are not ASCII
    white space. *)
Definition is_space (c : Ascii.ascii) : bool :=
  let n := Z.of_N (Ascii.N_of_ascii c) in
  (n =? 32) || ((9 <=? n) && (n <=? 13)).

Fixpoint split_from (cur : option string) (s : string) : list string :=
  match s with
  | EmptyString => match cur with Some t => [t] | None => [] end
  | String c s' =>
      if is_space c then
        match cur with
        | Some t => t :: split_from None s'
        | None => split_from None s'
        end
      else
        split_from (Some (default "" cur +:+ String c "")) s'
  end.

Definition bytes_split (b : string) : list string := split_from None b.

(** * [email_check.py] *)

Module email_check.

Section Checker.
Variable E : env.

Definition CONFIG_DIR : string := home E // ".config" // "email_check".
Definition CONFIG_PATH : string := CONFIG_DIR // "config.json".
Definition TOKENS_DIR : string := CONFIG_DIR // "tokens".
Definition RESULTS_PATH : string := CONFIG_DIR // "last_results.json".

(** ** [GmailHandler] *)

Record GmailHandler : Type := MkGmailHandler {
  account_name : json;
  email : json;
  service : bool     (* whether the session handle is set *)
}.

Definition with_service (h : GmailHandler) : GmailHandler :=
  {| account_name := account_name h; email := email h; service := true |}.

(** [GmailHandler.authenticate]: the handler as the call leaves it, and
    the value returned. *)
Definition authenticate (h : GmailHandler) : M (GmailHandler * bool) :=
  let o := gmail E (email h) in
  let ev op := emit (EvGmail (email h) op) in
  creds <- match token_file o with
           | Some r => ev TokenLoad ;;; c <- lift r ;; ret (Some c)
           | None => ret None
           end ;;
  proceed <-
    (if match creds with None => true | Some c => negb (valid c) end then
       go <-
         (if match creds with
             | None => false
             | Some c => expired c && refresh_token c
             end
          then
            ev Refresh ;;; lift (refresh o) ;;; ret true
          else if negb (client_secret_exists o) then
            log ERROR "Missing credentials.json. Download from Google Cloud Console" ;;;
            print "Please download credentials.json from Google Cloud Console and place in ~/.config/email_check/" ;;;
            ret false
          else
            ev AuthFlow ;;; lift (auth_flow o) ;;; ret true) ;;
       if go then
         (* Save the credentials for the next run *)
         ev TokenDump ;;; lift (token_dump o) ;;; ret true
       else ret false
     else ret true) ;;
  if proceed then
    ev Build ;;; lift (build o) ;;; ret (with_service h, true)
  else ret (h, false).

(** The [try] block of [GmailHandler.get_unread_count] with its handler. *)
Definition gmail_query (h : GmailHandler) : M Z :=
  try_except
    (emit (EvGmail (email h) ListUnread) ;;;
     results <- lift (list_unread (gmail E (email h))) ;;
     messages <- lift (get_default results "messages" (JList [])) ;;
     lift (py_len messages))
    (λ e, log ERROR "Error getting unread count for {self.account_name}: {str(e)}" ;;;
          ret (-1)).

(** [GmailHandler.get_unread_count] *)
Definition gmail_get_unread_count (h : GmailHandler) : M (GmailHandler * Z) :=
  if negb (service h) then
    a <- authenticate h ;;
    if negb (snd a) then ret (fst a, -1)
    else n <- gmail_query (fst a) ;; ret (fst a, n)
  else
    n <- gmail_query h ;; ret (h, n).

(** ** [ImapHandler] *)

(** [ImapHandler.get_password] *)
Definition get_password (account : json) : M string :=
  let o := imap E account in
  addr <- lift (getitem account "email") ;;
  emit (EvKeyringGet addr) ;;;
  password <- lift (keyring_get o) ;;
  match password with
  | Some p => ret p
  | None =>
      name <- lift (getitem account "name") ;;
      addr <- lift (getitem account "email") ;;
      emit (EvPrintFmt "Enter password for {} ({}):" [name; addr]) ;;;
      emit EvPrompt ;;;
      p <- lift (getpass o) ;;
      (* Store in keyring *)
      addr <- lift (getitem account "email") ;;
      emit (EvKeyringSet addr) ;;;
      lift (keyring_set o) ;;;
      ret p
  end.

(** [ImapHandler.get_unread_count] *)
Definition imap_get_unread_count (account : json) : M Z :=
  let o := imap E account in
  let ev op := emit (EvImap account op) in
  name <- lift (getitem account "name") ;;
  try_except
    (server <- lift (getitem account "imap_server") ;;
     port <- lift (getitem account "imap_port") ;;
     ev Connect ;;; lift (connect o) ;;;
     password <- get_password account ;;
     addr <- lift (getitem account "email") ;;
     ev Login ;;; lift (login o) ;;;
     ev Select ;;; lift (select o) ;;;
     ev Search ;;;
     sr <- lift (search o) ;;
     let status := fst sr in
     let response := snd sr in
     if negb (String.eqb status "OK") then
       log ERROR "Failed to search for UNSEEN messages in {name}" ;;;
       ret (-1)
     else
       first <- lift (match response with
                      | x :: _ => Return x
                      | [] => Raise IndexError
                      end) ;;
       tokens <- lift (match first with
                       | Some b => Return (bytes_split b)
                       | None => Raise AttributeError
                       end) ;;
       let unread_count := Z.of_nat (length tokens) in
       ev Logout ;;; lift (logout o) ;;;
       log INFO "{name}: {unread_count} unread messages" ;;;
       ret unread_count)
    (λ e, log ERROR "Error checking {name}: {str(e)}" ;;; ret (-1)).

(** ** The two handlers behind one interface *)

Inductive handler : Type :=
| Gmail (h : GmailHandler)
| Imap (account : json).     (* ImapHandler(account) *)

Definition get_unread_count (h : handler) : M (handler * Z) :=
  match h with
  | Gmail g => r <- gmail_get_unread_count g ;; ret (Gmail (fst r), snd r)
  | Imap account => n <- imap_get_unread_count account ;; ret (Imap account, n)
  end.

(** ** [EmailCounter] *)

Record EmailCounter : Type := MkEmailCounter {
  config_path : string;
  accounts : json;
  handlers : dict handler
}.

(** [EmailCounter._ensure_config_dir] *)
Definition _ensure_config_dir : M unit :=
  emit (EvMkdir CONFIG_DIR) ;;;
  emit (EvMkdir TOKENS_DIR).

(** The body of the loop of [_setup_handlers], on the registry built so
    far.  The right-hand side of each assignment is evaluated before the
    subscript of its target. *)
Definition setup_handler (handlers : dict handler) (account : json)
  : result (dict handler) :=
  match getitem account "type" with
  | Raise e => Raise e
  | Return ty =>
      if eq_str ty "gmail" then
        match getitem account "name" with
        | Raise e => Raise e
        | Return name =>
            match getitem account "email" with
            | Raise e => Raise e
            | Return addr =>
                match hashable name with
                | Raise e => Raise e
                | Return k =>
                    Return (dict_set k (Gmail (MkGmailHandler name addr false))
                              handlers)
                end
            end
        end
      else
        (* For non-Gmail accounts, password will be retrieved from keyring *)
        match getitem account "name" with
        | Raise e => Raise e
        | Return name =>
            match hashable name with
            | Raise e => Raise e
            | Return k => Return (dict_set k (Imap account) handlers)
            end
        end
  end.

Fixpoint setup_loop (l : list json) (handlers : dict handler)
  : result (dict handler) :=
  match l with
  | [] => Return handlers
  | account :: l' =>
      match setup_handler handlers account with
      | Raise e => Raise e
      | Return handlers' => setup_loop l' handlers'
      end
  end.

(** [EmailCounter._setup_handlers], from an empty registry. *)
Definition _setup_handlers (accounts : json) : result (dict handler) :=
  match py_iter accounts with
  | Raise e => Raise e
  | Return l => setup_loop l []
  end.

Definition default_config : json :=
  JList [
    JDict [("name", JStr "Gmail 1"); ("email", JStr "your.email@gmail.com");
           ("type", JStr "gmail")];
    JDict [("name", JStr "Gmail 2");
           ("email", JStr "your.second.email@gmail.com");
           ("type", JStr "gmail")];
    JDict [("name", JStr "iCloud"); ("email", JStr "your.email@icloud.com");
           ("type", JStr "icloud"); ("imap_server", JStr "imap.mail.me.com");
           ("imap_port", JInt 993)]
  ].

(** [EmailCounter._load_config] *)
Definition _load_config (config_path : string) : M json :=
  present <- exists_ config_path ;;
  if negb present then
    log INFO "Config file not found, creating template at {self.config_path}" ;;;
    (* Save default config *)
    json_dump config_path default_config ;;;
    (* Secure the config file: 0o600 *)
    emit (EvChmod config_path 384) ;;;
    log WARNING "Please edit the config file with your actual email credentials" ;;;
    ret default_config
  else
    try_except (json_load config_path)
      (λ e, match e with
            | JSONDecodeError =>
                log ERROR "Config file is not valid JSON" ;;; raise e
            | _ => raise e
            end).

(** [EmailCounter()]: the attributes' defaults, then
    [__attrs_post_init__]. *)
Definition new_EmailCounter : M EmailCounter :=
  _ensure_config_dir ;;;
  accounts <- _load_config CONFIG_PATH ;;
  handlers <- lift (_setup_handlers accounts) ;;
  ret (MkEmailCounter CONFIG_PATH accounts handlers).

(** The loop of [check_all_accounts] over [self.handlers.items()]: the
    handlers as the calls leave them, and the counts. *)
Fixpoint check_loop (items : dict handler) (results : dict Z)
  : M (dict handler * dict Z) :=
  match items with
  | [] => ret ([], results)
  | (name, h) :: items' =>
      r <- get_unread_count h ;;
      let count := snd r in
      q <- check_loop items' (dict_set name count results) ;;
      ret ((name, fst r) :: fst q, snd q)
  end.

(** [EmailCounter.check_all_accounts] *)
Definition check_all_accounts (c : EmailCounter) : M (EmailCounter * dict Z) :=
  r <- check_loop (handlers c) [] ;;
  ret (MkEmailCounter (config_path c) (accounts c) (fst r), snd r).

(** The document for [{"timestamp": ..., "counts": results}]. *)
Definition result_document (timestamp : string) (counts : list (string * json))
  : json :=
  JDict [("timestamp", JStr timestamp); ("counts", JDict counts)].

(** [EmailCounter.save_results] *)
Definition save_results (results : dict Z) : M unit :=
  t <- now E ;;
  json_dump RESULTS_PATH
    (result_document (isoformat E t) (loaded_counts results)) ;;;
  (* Secure the results file: 0o644 *)
  emit (EvChmod RESULTS_PATH 420) ;;;
  log INFO "Results saved to {RESULTS_PATH}".

(** ** Command line *)

(** [choice.lower() == "y"] *)
Definition is_yes (choice : string) : bool :=
  String.eqb choice "y" || String.eqb choice "Y".

(** [configure_account_passwords] *)
Definition configure_account_passwords : M unit :=
  counter <- new_EmailCounter ;;
  print "Setting up passwords for email accounts in keyring" ;;;
  l <- lift (py_iter (accounts counter)) ;;
  for_each l (λ account,
    ty <- lift (getitem account "type") ;;
    if negb (eq_str ty "gmail") then   (* Gmail uses OAuth *)
      addr <- lift (getitem account "email") ;;
      name <- lift (getitem account "name") ;;
      print "" ;;;
      emit (EvPrintFmt "Account: {} ({})" [name; addr]) ;;;
      emit EvPrompt ;;;
      choice <- lift (answer E account) ;;
      if is_yes choice then
        print "Enter new password:" ;;;
        emit EvPrompt ;;;
        lift (getpass (imap E account)) ;;;
        emit (EvKeyringSet addr) ;;;
        lift (keyring_set (imap E account)) ;;;
        emit (EvPrintFmt "Password updated for {}" [addr])
      else ret tt
    else ret tt).

Record args : Type := Args {
  output_json : bool;
  output_text : bool;
  configure : bool
}.

(** The text listing of [main]. *)
Definition print_counts (results : dict Z) : M unit :=
  for_each results (λ kv,
    let name := fst kv in
    let count := snd kv in
    if 0 <=? count then
      print (str_key name +:+ ": " +:+ str_int count +:+ " unread")
    else
      print (str_key name +:+ ": Error checking inbox")).

(** [main]: the value it returns is the exit code. *)
Definition main (a : args) : M Z :=
  (* If configure mode is selected, run the configuration utility *)
  if configure a then
    configure_account_passwords ;;; ret 0
  else
    counter <- new_EmailCounter ;;
    (* Check if config needs to be updated *)
    first_account <- lift (getitem0 (accounts counter)) ;;
    addr <- lift (get first_account "email") ;;
    if eq_str addr "your.email@gmail.com" then
      log WARNING "Please edit the config file before running" ;;;
      print ("Edit the configuration file at: " +:+ CONFIG_PATH) ;;;
      ret 1
    else
      try_except
        (r <- check_all_accounts counter ;;
         let results := snd r in
         (* Save results for later reference *)
         save_results results ;;;
         (if output_json a then
            t <- now E ;;
            emit (EvPrintJson
                    (result_document (isoformat E t) (written_counts results)))
          else if output_text a || negb (output_json a) then
            print "--- Email Inbox Counts ---" ;;;
            print_counts results ;;;
            t <- now E ;;
            print ("Last checked: " +:+ strftime E (naive t))
          else ret tt) ;;;
         ret 0)
        (λ e, log ERROR "Unexpected error: {str(e)}" ;;;
              emit (EvPrintExn "Error occurred: " e) ;;;
              ret 1).

End Checker.

End email_check.

(** * [show_status.py] *)

Module show_status.

Section Reporter.
Variable E : env.

Definition CONFIG_DIR : string := home E // ".config" // "email_counter".
Definition RESULTS_PATH : string := CONFIG_DIR // "last_results.json".

(** The branches of [format_time_ago] once [diff] is known. *)
Definition format_diff (diff : timedelta) : string :=
  if 0 <? days diff then
    str_int (days diff) +:+ " days ago"
  else if 3600 <=? seconds diff then
    let hours := seconds diff / 3600 in
    str_int hours +:+ " hour" +:+ (if 1 <? hours then "s" else "") +:+ " ago"
  else if 60 <=? seconds diff then
    let minutes := seconds diff / 60 in
    str_int minutes +:+ " minute" +:+ (if 1 <? minutes then "s" else "") +:+ " ago"
  else
    str_int (seconds diff) +:+ " second"
      +:+ (if negb (seconds diff =? 1) then "s" else "") +:+ " ago".

(** [datetime.fromisoformat(v)]: the argument must be a [str]. *)
Definition parse_timestamp (v : json) : result datetime :=
  match v with
  | JStr s => fromisoformat E s
  | _ => Raise TypeError
  end.

(** [format_time_ago] *)
Definition format_time_ago (timestamp_str : json) : M string :=
  timestamp <- lift (parse_timestamp timestamp_str) ;;
  t <- now E ;;
  diff <- lift (datetime_sub (naive t) timestamp) ;;
  ret (format_diff diff).

(** [v.items()]: only a [dict] has the method. *)
Definition items (v : json) : result (list (string * json)) :=
  match v with
  | JDict d => Return d
  | _ => Raise AttributeError
  end.

(** [count >= 0]; a [bool] compares as 0 or 1. *)
Definition ge0 (count : json) : result bool :=
  match count with
  | JInt z => Return (0 <=? z)
  | JBool _ => Return true
  | _ => Raise TypeError
  end.

(** [str(count)] for a [count] that [ge0] accepts. *)
Definition str_count (count : json) : string :=
  match count with
  | JInt z => str_int z
  | JBool b => if b then "True" else "False"
  | _ => ""
  end.

Record args : Type := Args {
  json_flag : bool;       (* --json *)
  legacy_path : bool      (* --legacy-path *)
}.

(** The listing of [main], one line per entry of [counts]. *)
Definition print_counts (counts : list (string * json)) : M unit :=
  for_each counts (λ kv,
    let name := fst kv in
    let count := snd kv in
    nonneg <- lift (ge0 count) ;;
    if nonneg then
      print (name +:+ ": " +:+ str_count count +:+ " unread")
    else
      print (name +:+ ": Error checking inbox")).

(** [main]: the value it returns is the exit code. *)
Definition main (a : args) : M Z :=
  (* First check the new path *)
  let results_path := RESULTS_PATH in
  present <- exists_ results_path ;;
  results_path <-
    (* If file doesn't exist and legacy-path flag is set, check old location *)
    (if negb present && legacy_path a then
       let legacy_results_path :=
         home E // ".email_counter" // "last_results.json" in
       legacy_present <- exists_ legacy_results_path ;;
       if legacy_present then
         print "Using legacy configuration path. Consider migrating to the new location." ;;;
         ret legacy_results_path
       else ret results_path
     else ret results_path) ;;
  present <- exists_ results_path ;;
  if negb present then
    print "No email status data found. Run email_counter first." ;;;
    print ("Expected path: " +:+ RESULTS_PATH) ;;;
    ret 1
  else
    try_except
      (data <- json_load results_path ;;
       timestamp <- lift (get data "timestamp") ;;
       counts <- lift (get_default data "counts" (JDict [])) ;;
       (if json_flag a then
          emit (EvPrintJson data)
        else
          print "--- Email Inbox Status ---" ;;;
          entries <- lift (items counts) ;;
          print_counts entries ;;;
          if truthy timestamp then
            time_ago <- format_time_ago timestamp ;;
            print ("Last checked: " +:+ time_ago) ;;;
            exact <- lift (parse_timestamp timestamp) ;;
            print ("Exact time: " +:+ strftime E exact)
          else ret tt) ;;;
       ret 0)
      (λ e, emit (EvPrintExn "Error reading email status: " e) ;;; ret 1).

End Reporter.

End show_status.

(** * Vocabulary of the statements *)

(** Time spans, in microseconds. *)
Definition secs (n : Z) : Z := n * us_per_second.
Definition mins (n : Z) : Z := secs (60 * n).
Definition hrs (n : Z) : Z := secs (3600 * n).
Definition dys (n : Z) : Z := secs (86400 * n).

(** A [dict] holds no two entries with equal keys. *)
Definition fresh {V : Type} (k : key) (d : dict V) : bool :=
  forallb (λ kv, negb (key_eqb (fst kv) k)) d.

Fixpoint unique_keys {V : Type} (d : dict V) : bool :=
  match d with
  | [] => true
  | (k, _) :: d' => fresh k d' && unique_keys d'
  end.

(** The entry the registry makes for one account descriptor: what
    [_setup_handlers] puts into an empty registry for it. *)
Definition registered (account : json) : option (key * email_check.handler) :=
  match email_check.setup_handler [] account with
  | Return [entry] => Some entry
  | _ => None
  end.

(** An account descriptor of the data model: [name], [email] and [type]
    are there, and the name can be a key. *)
Definition descriptor (account : json) : bool :=
  match getitem account "name" with
  | Return name => is_return (hashable name)
  | Raise _ => false
  end
  && is_return (getitem account "email")
  && is_return (getitem account "type").

Definition is_gmail (h : email_check.handler) : bool :=
  match h with
  | email_check.Gmail _ => true
  | email_check.Imap _ => false
  end.

Definition result_map {A B : Type} (f : A → B) (r : result A) : result B :=
  match r with
  | Return a => Return (f a)
  | Raise e => Raise e
  end.

(** The count one handler's check yields, or the exception it raises. *)
Definition count_of (E : env) (h : email_check.handler) : result Z :=
  result_map snd (value (email_check.get_unread_count E h (World ∅ 0))).

(** One count per entry of the registry, in its order; the first check that
    raises ends the sequence. *)
Fixpoint counts_of (E : env) (items : dict email_check.handler) : result (dict Z) :=
  match items with
  | [] => Return []
  | (name, h) :: items' =>
      match count_of E h with
      | Raise e => Raise e
      | Return count => result_map (cons (name, count)) (counts_of E items')
      end
  end.

(** The number of tokens of [s] that the separators [sep] delimit: the
    number of places where a token starts. *)
Fixpoint token_starts (sep : Ascii.ascii → bool) (after_sep : bool) (s : string)
  : nat :=
  match s with
  | EmptyString => 0
  | String c s' =>
      ((if after_sep && negb (sep c) then 1 else 0)
       + token_starts sep (sep c) s')%nat
  end.

Definition count_tokens (sep : Ascii.ascii → bool) (s : string) : nat :=
  token_starts sep true s.

(** The space character alone. *)
Definition is_blank (c : Ascii.ascii) : bool := Ascii.eqb c Ascii.Space.

(** [s] has no white space other than the space character. *)
Fixpoint only_blanks (s : string) : bool :=
  match s with
  | EmptyString => true
  | String c s' => Bool.eqb (is_space c) (is_blank c) && only_blanks s'
  end.

(** How [get_password] ends for the outcomes [o]. *)
Definition password_obtained (o : imap_outcomes) : bool :=
  match keyring_get o with
  | Return (Some _) => true
  | Return None => is_return (getpass o) && is_return (keyring_set o)
  | Raise _ => false
  end.

(** The session of [account] gets as far as the search: the descriptor
    names a server, a port and an address, and connecting, obtaining the
    password, logging in and selecting the inbox all succeed. *)
Definition session_opens (E : env) (account : json) : bool :=
  is_return (getitem account "imap_server")
  && is_return (getitem account "imap_port")
  && is_return (connect (imap E account))
  && is_return (getitem account "email")
  && password_obtained (imap E account)
  && is_return (login (imap E account))
  && is_return (select (imap E account)).

(** The events by which a run reaches an account: the calls to the mail
    servers and to the OAuth service, to the keyring, and the prompts. *)
Definition account_event (e : event) : bool :=
  match e with
  | EvGmail _ _ | EvImap _ _ | EvKeyringGet _ | EvKeyringSet _ | EvPrompt => true
  | _ => false
  end.

(** The address the configuration template gives its first account. *)
Definition placeholder_email : string := "your.email@gmail.com".

(** A computation that neither reads nor changes the world. *)
Definition detached {A : Type} (m : M A) : Prop :=
  ∃ evs r, ∀ w, m w = Reply w evs r.





(** A computation all of whose events satisfy [P]. *)
Definition emits_only (P : event → Prop) {A : Type} (m : M A) : Prop :=
  ∀ w, Forall P (emitted (m w)).

(** A computation that reads no file: what it emits and returns depends on
    the world only through the clock. *)
Definition reads_no_file {A : Type} (m : M A) : Prop :=
  ∀ w1 w2, ticks w1 = ticks w2 →
    emitted (m w1) = emitted (m w2)
    ∧ value (m w1) = value (m w2)
    ∧ ticks (after (m w1)) = ticks (after (m w2)).

(** The line of a listing for a count as the checker stores it: a negative
    count stands for a failed check. *)
Definition status_line (name : string) (count : Z) : string :=
  name +:+ (if 0 <=? count then ": " +:+ str_int count +:+ " unread"
            else ": Error checking inbox").

(** * Sample environments *)

Module sample.

(** 2024-05-01 12:00:00, as the instant the sample codec gives it. *)
Definition t0 : Z := 1714564800000000.
Definition stamp : string := "2024-05-01T12:00:00".

Definition gmail_ok : gmail_outcomes :=
  {| token_file := Some (Return (Credentials true false true));
     refresh := Return tt;
     client_secret_exists := true;
     auth_flow := Return (Credentials true false true);
     token_dump := Return tt;
     build := Return tt;
     list_unread := Return (JDict [("messages", JList [JNull; JNull])]) |}.

(** The stored token has expired and the refresh request fails. *)
Definition gmail_refresh_fails : gmail_outcomes :=
  {| token_file := Some (Return (Credentials false true true));
     refresh := Raise (LibraryError "TransportError");
     client_secret_exists := true;
     auth_flow := Return (Credentials true false true);
     token_dump := Return tt;
     build := Return tt;
     list_unread := Return (JDict [("messages", JList [JNull; JNull])]) |}.

Definition imap_with (found : result (string * list (option string)))
    (bye : result unit) : imap_outcomes :=
  {| connect := Return tt;
     keyring_get := Return (Some "secret");
     getpass := Return "secret";
     keyring_set := Return tt;
     login := Return tt;
     select := Return tt;
     search := found;
     logout := bye |}.

Definition imap_ok : imap_outcomes :=
  imap_with (Return ("OK", [Some "1 2 3"])) (Return tt).

(** The server answers the search with NO. *)
Definition imap_search_refused : imap_outcomes :=
  imap_with (Return ("NO", [None])) (Return tt).

(** The search finds three messages and the logout fails. *)
Definition imap_logout_fails : imap_outcomes :=
  imap_with (Return ("OK", [Some "1 2 3"]))
    (Raise (LibraryError "imaplib.IMAP4.abort")).

Definition environment (tick : nat → Z) (g : gmail_outcomes)
    (i : imap_outcomes) : env :=
  {| home := "/home/pi";
     clock := tick;
     isoformat := λ t, if t =? t0 then stamp else "1970-01-01T00:00:00";
     fromisoformat :=
       λ s, if String.eqb s stamp then Return (naive t0) else Raise ValueError;
     strftime :=
       λ d, if instant d =? t0 then "2024-05-01 12:00:00"
            else "1970-01-01 00:00:00";
     gmail := λ _, g;
     imap := λ _, i;
     answer := λ _, Return "n" |}.

(** The clock stands at [t]. *)
Definition standing (t : Z) : nat → Z := λ _, t.



Definition quiet : env := environment (standing t0) gmail_ok imap_ok.

Definition work : json :=
  JDict [("name", JStr "Work"); ("email", JStr "me@example.org");
         ("type", JStr "gmail")].

Definition icloud : json :=
  JDict [("name", JStr "iCloud"); ("email", JStr "me@icloud.com");
         ("type", JStr "icloud"); ("imap_server", JStr "imap.mail.me.com");
         ("imap_port", JInt 993)].

(** A descriptor whose type is the marker of the design note. *)
Definition oauth : json :=
  JDict [("name", JStr "Work"); ("email", JStr "me@example.org");
         ("type", JStr "oauth_mail")].


Definition empty_world : world := World ∅ 0.

(** A stored result document, where the reporter looks for it. *)
Definition stored : json :=
  JDict [("timestamp", JStr stamp); ("counts", JDict [("Work", JInt 3)])].

Definition reported (E : env) : world :=
  World {[ show_status.RESULTS_PATH E := FJson stored ]} 0.

(** The token is valid and the list query fails. *)
Definition gmail_query_fails : gmail_outcomes :=
  {| token_file := Some (Return (Credentials true false true));
     refresh := Return tt;
     client_secret_exists := true;
     auth_flow := Return (Credentials true false true);
     token_dump := Return tt;
     build := Return tt;
     list_unread := Raise (LibraryError "HttpError") |}.

(** Neither a stored token nor a credentials.json. *)
Definition gmail_unconfigured : gmail_outcomes :=
  {| token_file := None;
     refresh := Return tt;
     client_secret_exists := false;
     auth_flow := Return (Credentials true false true);
     token_dump := Return tt;
     build := Return tt;
     list_unread := Return (JDict [("messages", JList [JNull; JNull])]) |}.

(** A descriptor with no more than a name and a type. *)
Definition bare : json := JDict [("name", JStr "Spare"); ("type", JStr "imap")].

(** A home directory whose configuration file holds [accounts]. *)
Definition configured (E : env) (accounts : list json) : world :=
  World {[ email_check.CONFIG_PATH E := FJson (JList accounts) ]} 0.

(** A configuration file that is not JSON. *)
Definition broken_config (E : env) : world :=
  World {[ email_check.CONFIG_PATH E := FInvalid ]} 0.

(** A configuration file that is not text. *)
Definition binary_config (E : env) : world :=
  World {[ email_check.CONFIG_PATH E := FNotText ]} 0.

(** The counter [new_EmailCounter] builds from [work] and [icloud]. *)
Definition counter (E : env) : email_check.EmailCounter :=
  email_check.MkEmailCounter (email_check.CONFIG_PATH E)
    (JList [work; icloud])
    [(KStr "Work",
      email_check.Gmail
        (email_check.MkGmailHandler (JStr "Work") (JStr "me@example.org") false));
     (KStr "iCloud", email_check.Imap icloud)].

(** A result document at the old location only. *)
Definition legacy (E : env) : world :=
  World {[ home E // ".email_counter" // "last_results.json" := FJson stored ]} 0.

(** A result file that is not JSON. *)
Definition unreadable (E : env) : world :=
  World {[ show_status.RESULTS_PATH E := FInvalid ]} 0.

(** A result document whose second count is not a number. *)
Definition garbled : list (string * json) :=
  [("timestamp", JStr stamp);
   ("counts", JDict [("Work", JInt 3); ("iCloud", JStr "n/a")])].

Definition garbled_report (E : env) : world :=
  World {[ show_status.RESULTS_PATH E := FJson (JDict garbled) ]} 0.

End sample.

(** * Properties *)

(** ** Tactics *)

(** Unfold the operations of [M] and compute as far as the outcomes that
    are known allow. *)
Ltac run_monad :=
  unfold bind, try_except, lift, ret, raise, emit, log, print; simpl.

(** Case analysis on the outcomes a run depends on, innermost first. *)
Ltac case_outcomes :=
  repeat match goal with
         | |- context [match ?x with _ => _ end] =>
             lazymatch x with
             | context [match _ with _ => _ end] => fail
             | _ => destruct x eqn:?; simpl
             end
         end.


Lemma total_value {A} (r : result A) : is_return r = true → ∃ a, r = Return a.
Proof. destruct r; [eauto | done]. Qed.

Lemma append_assoc (a b c : string) : (a +:+ b) +:+ c = a +:+ (b +:+ c).
Proof.
  induction a as [|x a IH]; [done|].
  change (String x ((a +:+ b) +:+ c) = String x (a +:+ (b +:+ c))).
  by f_equal.
Qed.

(** ** Relative time *)

Lemma timedelta_of_us_days us d :
  d * us_per_day ≤ us < (d + 1) * us_per_day → days (timedelta_of_us us) = d.
Proof.
  intros H. unfold timedelta_of_us; simpl. symmetry.
  apply (Z.div_unique_pos us us_per_day d (us - d * us_per_day));
    unfold us_per_day, us_per_second in *; lia.
Qed.

Lemma timedelta_of_us_seconds us s :
  0 ≤ s < 86400 → s * us_per_second ≤ us < (s + 1) * us_per_second →
  days (timedelta_of_us us) = 0 ∧ seconds (timedelta_of_us us) = s.
Proof.
  intros Hs H. unfold timedelta_of_us, us_per_day, us_per_second in *; simpl.
  split.
  - apply Z.div_small. lia.
  - rewrite Z.mod_small by lia. symmetry.
    apply (Z.div_unique_pos us 1000000 s (us - s * 1000000)); lia.
Qed.

(** A span of [per * n] to [per * (n + 1)] seconds holds a whole number of
    seconds in that range. *)
Lemma whole_seconds us per n :
  0 < per → secs (per * n) ≤ us < secs (per * (n + 1)) →
  ∃ s, per * n ≤ s < per * (n + 1)
       ∧ s * us_per_second ≤ us < (s + 1) * us_per_second.
Proof.
  intros Hper H. exists (us / us_per_second).
  unfold secs, us_per_second in *.
  pose proof (Z.div_mod us 1000000 ltac:(lia)).
  pose proof (Z.mod_pos_bound us 1000000 ltac:(lia)). nia.
Qed.

Lemma format_diff_days us n :
  1 ≤ n → dys n ≤ us < dys (n + 1) →
  show_status.format_diff (timedelta_of_us us) = str_int n +:+ " days ago".
Proof.
  intros Hn H. unfold show_status.format_diff.
  rewrite (timedelta_of_us_days us n)
    by (unfold dys, secs, us_per_day in *; lia).
  by replace (0 <? n) with true by lia.
Qed.

Lemma format_diff_hours us n :
  1 ≤ n < 24 → hrs n ≤ us < hrs (n + 1) →
  show_status.format_diff (timedelta_of_us us)
  = str_int n +:+ " hour" +:+ (if n =? 1 then "" else "s") +:+ " ago".
Proof.
  intros Hn H. unfold show_status.format_diff.
  destruct (whole_seconds us 3600 n) as (s & Hs & Hus); [lia | exact H |].
  destruct (timedelta_of_us_seconds us s) as [-> ->]; [lia | exact Hus |].
  simpl (0 <? 0).
  replace (3600 <=? s) with true by lia.
  replace (s / 3600) with n
    by (apply (Z.div_unique_pos s 3600 n (s - 3600 * n)); lia).
  replace (1 <? n) with (negb (n =? 1)) by lia.
  by destruct (n =? 1).
Qed.

Lemma format_diff_minutes us n :
  1 ≤ n < 60 → mins n ≤ us < mins (n + 1) →
  show_status.format_diff (timedelta_of_us us)
  = str_int n +:+ " minute" +:+ (if n =? 1 then "" else "s") +:+ " ago".
Proof.
  intros Hn H. unfold show_status.format_diff.
  destruct (whole_seconds us 60 n) as (s & Hs & Hus); [lia | exact H |].
  destruct (timedelta_of_us_seconds us s) as [-> ->]; [lia | exact Hus |].
  simpl (0 <? 0).
  replace (3600 <=? s) with false by lia.
  replace (60 <=? s) with true by lia.
  replace (s / 60) with n by (apply (Z.div_unique_pos s 60 n (s - 60 * n)); lia).
  replace (1 <? n) with (negb (n =? 1)) by lia.
  by destruct (n =? 1).
Qed.

Lemma format_diff_seconds us n :
  0 ≤ n < 60 → secs n ≤ us < secs (n + 1) →
  show_status.format_diff (timedelta_of_us us)
  = str_int n +:+ " second" +:+ (if n =? 1 then "" else "s") +:+ " ago".
Proof.
  intros Hn H. unfold show_status.format_diff.
  destruct (timedelta_of_us_seconds us n) as [-> ->]; [lia | exact H |].
  simpl (0 <? 0).
  replace (3600 <=? n) with false by lia.
  replace (60 <=? n) with false by lia.
  by destruct (n =? 1).
Qed.

(** What [format_time_ago] returns for a naive timestamp [t]. *)
Lemma format_time_ago_naive E ts t w :
  fromisoformat E ts = Return (naive t) →
  value (show_status.format_time_ago E (JStr ts) w)
  = Return (show_status.format_diff (timedelta_of_us (clock E (ticks w) - t))).
Proof.
  intros H. unfold show_status.format_time_ago, show_status.parse_timestamp.
  run_monad. by rewrite H.
Qed.

(** The part of the examples of the design note that holds: the four
    offsets, and the singular for one second, one minute and one hour. *)
Lemma format_time_ago_examples E ts t w :
  fromisoformat E ts = Return (naive t) →
  let ago (span : Z) (text : string) :=
    clock E (ticks w) = t + span →
    value (show_status.format_time_ago E (JStr ts) w) = Return text in
  ago (secs 45) "45 seconds ago" ∧ ago (mins 5) "5 minutes ago"
  ∧ ago (hrs 3) "3 hours ago" ∧ ago (dys 2) "2 days ago"
  ∧ ago (secs 1) "1 second ago" ∧ ago (mins 1) "1 minute ago"
  ∧ ago (hrs 1) "1 hour ago".
Proof.
  intros Hts ago. subst ago. cbv beta.
  repeat split; intros Hc; rewrite (format_time_ago_naive E ts t w Hts), Hc;
    f_equal.
  - rewrite (format_diff_seconds _ 45); [done | lia | unfold secs, us_per_second; lia].
  - rewrite (format_diff_minutes _ 5); [done | lia | unfold mins, secs, us_per_second; lia].
  - rewrite (format_diff_hours _ 3); [done | lia | unfold hrs, secs, us_per_second; lia].
  - rewrite (format_diff_days _ 2); [done | lia | unfold dys, secs, us_per_second; lia].
  - rewrite (format_diff_seconds _ 1); [done | lia | unfold secs, us_per_second; lia].
  - rewrite (format_diff_minutes _ 1); [done | lia | unfold mins, secs, us_per_second; lia].
  - rewrite (format_diff_hours _ 1); [done | lia | unfold hrs, secs, us_per_second; lia].
Qed.

(** C5, at the input where the code departs from it: a check made
    one day or more, and less than two days, ago is reported as
    "1 days ago"; the branch for days has no singular, which the branches
    for hours, minutes and seconds have. *)
Theorem format_time_ago_one_day E ts t w :
  fromisoformat E ts = Return (naive t) →
  dys 1 ≤ clock E (ticks w) - t < dys 2 →
  value (show_status.format_time_ago E (JStr ts) w) = Return "1 days ago".
Proof.
  intros Hts Hd. rewrite (format_time_ago_naive E ts t w Hts).
  by rewrite (format_diff_days _ 1).
Qed.

Lemma format_time_ago_one_day_witness :
  value (show_status.format_time_ago
           (sample.environment (sample.standing (sample.t0 + dys 1))
              sample.gmail_ok sample.imap_ok)
           (JStr sample.stamp) sample.empty_world)
  = Return "1 days ago".
Proof.
  apply (format_time_ago_one_day _ sample.stamp sample.t0).
  - reflexivity.
  - vm_compute. split; [discriminate | reflexivity].
Defined.

(** ** Keys and dictionaries *)



Lemma key_eqb_sym a b : key_eqb a b = key_eqb b a.
Proof.
  destruct a, b; simpl; auto using Z.eqb_sym, String.eqb_sym.
  destruct b, b0; reflexivity.
Qed.



Section Dict.
Context {V : Type}.
Implicit Types (d : dict V) (k : key) (v : V).



End Dict.

Lemma fresh_spec {V} k (d : dict V) :
  fresh k d = true ↔ ∀ kv, kv ∈ d → key_eqb (fst kv) k = false.
Proof.
  unfold fresh. rewrite forallb_forall. split; intros H kv Hin.
  - apply negb_true_iff, H. by apply list_elem_of_In.
  - apply negb_true_iff, H. by apply list_elem_of_In.
Qed.

Lemma dict_set_fresh {V} k (v : V) d :
  fresh k d = true → dict_set k v d = d ++ [(k, v)].
Proof.
  unfold fresh. induction d as [|[k0 v0] d IH]; simpl; [done|].
  intros [Hk Hf]%andb_true_iff.
  apply negb_true_iff in Hk. rewrite Hk. by rewrite IH.
Qed.

(** ** The registry *)

Section Registry.
Import email_check.







(** C3, as the code has it: the registry makes the OAuth handler for
    an account descriptor if and only if its type is exactly "gmail", the
    marker of the code; every other type, "oauth_mail" among them, gets the
    IMAP handler for the descriptor. *)
Theorem registry_routes_by_type handlers account :
  descriptor account = true →
  ∃ k h ty,
    getitem account "type" = Return ty
    ∧ registered account = Some (k, h)
    ∧ setup_handler handlers account = Return (dict_set k h handlers)
    ∧ (is_gmail h = true ↔ ty = JStr "gmail")
    ∧ (ty ≠ JStr "gmail" → h = Imap account).
Proof.
  unfold descriptor. intros Hd.
  repeat (apply andb_true_iff in Hd as [Hd ?]).
  destruct (getitem account "name") as [name|] eqn:Hname; [|done].
  repeat match goal with
         | H : is_return _ = true |- _ => apply total_value in H as [? H]
         end.
  rename x into ty, x0 into addr, x1 into k.
  assert (Hty : eq_str ty "gmail" = true ↔ ty = JStr "gmail").
  { destruct ty; simpl; try (split; [done | intros; discriminate]).
    rewrite String.eqb_eq. split; congruence. }
  destruct (eq_str ty "gmail") eqn:Heq.
  - exists k, (Gmail (MkGmailHandler name addr false)), ty.
    unfold registered, setup_handler. rewrite H, H0, Hname, Hd, Heq. simpl.
    repeat split; try done.
    + by apply Hty.
    + intros Hne. by destruct Hne; apply Hty.
  - exists k, (Imap account), ty.
    unfold registered, setup_handler. rewrite H, Hname, Hd, Heq. simpl.
    repeat split; try done.
    intros <-%Hty. done.
Qed.

End Registry.

Lemma oauth_mail_descriptor_gets_imap_handler :
  descriptor sample.oauth = true
  ∧ getitem sample.oauth "type" = Return (JStr "oauth_mail")
  ∧ email_check._setup_handlers (JList [sample.oauth])
    = Return [(KStr "Work", email_check.Imap sample.oauth)]
  ∧ is_gmail (email_check.Imap sample.oauth) = false.
Proof. repeat split. Qed.

Lemma registry_routes_by_type_witness :
  ∃ k h ty,
    getitem sample.work "type" = Return ty
    ∧ registered sample.work = Some (k, h)
    ∧ email_check.setup_handler [] sample.work = Return (dict_set k h [])
    ∧ (is_gmail h = true ↔ ty = JStr "gmail")
    ∧ (ty ≠ JStr "gmail" → h = email_check.Imap sample.work).
Proof. apply (registry_routes_by_type [] sample.work). reflexivity. Defined.

(** ** Checks that do not depend on the world *)

Lemma detached_ret {A} (a : A) : detached (ret a).
Proof. by exists [], (Return a). Qed.

Lemma detached_lift {A} (r : result A) : detached (lift r).
Proof. by exists [], r. Qed.

Lemma detached_emit e : detached (emit e).
Proof. by exists [e], (Return tt). Qed.

Lemma detached_bind {A B} (m : M A) (k : A → M B) :
  detached m → (∀ a, detached (k a)) → detached (bind m k).
Proof.
  intros (evs & r & Hm) Hk. destruct r as [a|e].
  - destruct (Hk a) as (evs' & r' & Hka).
    exists (evs ++ evs'), r'. intros w. unfold bind. by rewrite Hm; simpl; rewrite Hka.
  - exists evs, (Raise e). intros w. unfold bind. by rewrite Hm.
Qed.

Lemma detached_try_except {A} (m : M A) (h : exn → M A) :
  detached m → (∀ e, detached (h e)) → detached (try_except m h).
Proof.
  intros (evs & r & Hm) Hh. destruct r as [a|e].
  - exists evs, (Return a). intros w. unfold try_except. by rewrite Hm.
  - destruct (Hh e) as (evs' & r' & Hhe).
    exists (evs ++ evs'), r'. intros w. unfold try_except. by rewrite Hm; simpl; rewrite Hhe.
Qed.

Lemma detached_if {A} (b : bool) (m1 m2 : M A) :
  detached m1 → detached m2 → detached (if b then m1 else m2).
Proof. by destruct b. Qed.

Ltac detached :=
  repeat first
    [ apply detached_ret | apply detached_lift | apply detached_emit
    | apply detached_bind; [|intros ?] | apply detached_try_except; [|intros ?]
    | apply detached_if
    | match goal with
      | |- detached (match ?x with _ => _ end) => destruct x
      | |- detached (let _ := _ in _) => cbv zeta
      end ].

Section Detached.
Import email_check.

Lemma detached_authenticate E h : detached (authenticate E h).
Proof. unfold authenticate, log, print. detached. Qed.

Lemma detached_gmail_get_unread_count E h : detached (gmail_get_unread_count E h).
Proof.
  unfold gmail_get_unread_count, gmail_query, log.
  pose proof (detached_authenticate E h). detached; done.
Qed.

Lemma detached_get_password E account : detached (get_password E account).
Proof. unfold get_password. detached. Qed.

Lemma detached_imap_get_unread_count E account :
  detached (imap_get_unread_count E account).
Proof.
  unfold imap_get_unread_count, log.
  pose proof (detached_get_password E account). detached; done.
Qed.

Lemma detached_get_unread_count E h : detached (get_unread_count E h).
Proof.
  destruct h; simpl.
  - pose proof (detached_gmail_get_unread_count E h). detached; done.
  - pose proof (detached_imap_get_unread_count E account). detached; done.
Qed.

Lemma count_of_detached E h evs r :
  (∀ w, get_unread_count E h w = Reply w evs r) → count_of E h = result_map snd r.
Proof. intros H. unfold count_of. by rewrite H. Qed.

Lemma check_loop_counts E items : ∀ results w,
  unique_keys items = true →
  (∀ kv kh, kv ∈ results → kh ∈ items → key_eqb (fst kv) (fst kh) = false) →
  result_map snd (value (check_loop E items results w))
  = result_map (app results) (counts_of E items).
Proof.
  induction items as [|[k h] items IH]; intros results w Hu Hd; simpl.
  - by rewrite app_nil_r.
  - apply andb_true_iff in Hu as [Hk Hu].
    destruct (detached_get_unread_count E h) as (evs & r & Hh).
    rewrite (count_of_detached E h evs r Hh).
    unfold bind at 1. rewrite Hh.
    destruct r as [[h' n]|e]; simpl; [|done].
    rewrite dict_set_fresh.
    2:{ apply fresh_spec. intros kv Hkv. apply (Hd kv (k, h)); [done | left]. }
    assert (Hd' : ∀ kv kh, kv ∈ results ++ [(k, n)] → kh ∈ items →
                  key_eqb (fst kv) (fst kh) = false).
    { intros kv kh [Hkv | ->%list_elem_of_singleton]%elem_of_app Hkh.
      - apply Hd; [done | by right].
      - simpl. rewrite key_eqb_sym. by apply (proj1 (fresh_spec k items)). }
    specialize (IH (results ++ [(k, n)]) w Hu Hd').
    unfold bind at 1.
    destruct (check_loop E items (results ++ [(k, n)]) w) as [w2 evs2 [[its R]|e]],
      (counts_of E items) as [R'|e']; simplify_eq/=; [|done].
    by rewrite <- app_assoc.
Qed.

Lemma check_all_accounts_counts E c w :
  unique_keys (handlers c) = true →
  result_map snd (value (check_all_accounts E c w)) = counts_of E (handlers c).
Proof.
  intros Hu. unfold check_all_accounts, bind, ret.
  pose proof (check_loop_counts E (handlers c) [] w Hu) as H.
  destruct (check_loop E (handlers c) [] w) as [w2 evs2 [[its R]|e]];
    simpl in *; rewrite H by (intros ?? []%elem_of_nil);
    by destruct (counts_of E (handlers c)).
Qed.

Lemma counts_of_keys E items R :
  counts_of E items = Return R → map fst R = map fst items.
Proof.
  revert R. induction items as [|[k h] items IH]; intros R; simpl.
  - by intros [= <-].
  - destruct (count_of E h) as [n|]; [|done].
    destruct (counts_of E items) as [R'|]; [|done].
    intros [= <-]. simpl. f_equal. by apply IH.
Qed.







End Detached.

(** ** The Gmail handler *)

Section Gmail.
Import email_check.

Lemma py_len_nonneg v n : py_len v = Return n → 0 ≤ n.
Proof. destruct v; simpl; intros; simplify_eq; lia. Qed.

(** The query is guarded: whatever the service answers, [gmail_query]
    returns a count or -1. *)
Lemma gmail_query_returns E h w :
  ∃ n, value (gmail_query E h w) = Return n ∧ (n = -1 ∨ 0 ≤ n).
Proof.
  unfold gmail_query. run_monad.
  destruct (list_unread (gmail E (email h))) as [results|e]; simpl; [|eauto].
  destruct (get_default results "messages" (JList [])) as [messages|e];
    simpl; [|eauto].
  destruct (py_len messages) as [n|e] eqn:Hn; simpl; [|eauto].
  apply py_len_nonneg in Hn. eauto.
Qed.

(** A handler that holds a session does not raise, and stays as it is.
    Every error of the list query is logged and converted to -1: the call
    that raises, an answer that has no [get], a member "messages" that has
    no length.  Without an error the count is the length of that member,
    and nothing is logged. *)
Lemma gmail_with_service_returns E h w :
  service h = true →
  let r := gmail_get_unread_count E h w in
  let answer := list_unread (gmail E (email h)) in
  let failed :=
    value r = Return (h, -1)
    ∧ emitted r
      = [EvGmail (email h) ListUnread;
         EvLog ERROR
           "Error getting unread count for {self.account_name}: {str(e)}"] in
  is_return (value r) = true
  ∧ after r = w
  ∧ (∀ e, answer = Raise e → failed)
  ∧ (∀ results e,
       answer = Return results →
       get_default results "messages" (JList []) = Raise e → failed)
  ∧ (∀ results messages e,
       answer = Return results →
       get_default results "messages" (JList []) = Return messages →
       py_len messages = Raise e → failed)
  ∧ (∀ results messages n,
       answer = Return results →
       get_default results "messages" (JList []) = Return messages →
       py_len messages = Return n →
       value r = Return (h, n)
       ∧ emitted r = [EvGmail (email h) ListUnread]).
Proof.
  intros Hs r answer failed. subst r answer failed.
  unfold gmail_get_unread_count, gmail_query. rewrite Hs. run_monad.
  split; [|split]; [by case_outcomes | by case_outcomes |].
  split; [intros e He | split; [intros results e He Hg
    | split; [intros results messages e He Hg Hn
             | intros results messages n He Hg Hn]]];
    rewrite He; simpl; rewrite ?Hg; simpl; rewrite ?Hn; done.
Qed.

(** Whatever [get_unread_count] returns is a count or -1. *)
Lemma gmail_get_unread_count_range E h w h' n :
  value (gmail_get_unread_count E h w) = Return (h', n) → n = -1 ∨ 0 ≤ n.
Proof.
  unfold gmail_get_unread_count.
  destruct (service h).
  - simpl. unfold bind, ret.
    destruct (gmail_query_returns E h w) as (m & Hm & Hr).
    destruct (gmail_query E h w) as [w1 evs1 r1]; simpl in *. subst r1.
    intros; simplify_eq/=. done.
  - simpl. unfold bind at 1.
    destruct (authenticate E h w) as [w1 evs1 [[h1 ok]|e]]; simpl; [|done].
    destruct ok; simpl.
    + unfold bind, ret.
      destruct (gmail_query_returns E h1 w1) as (m & Hm & Hr).
      destruct (gmail_query E h1 w1) as [w2 evs2 r2]; simpl in *. subst r2.
      intros; simplify_eq/=. done.
    + unfold ret. intros; simplify_eq/=. by left.
Qed.

(** The refresh of an expired token is outside every [try]. *)
Lemma authenticate_refresh_raises E h w creds e :
  token_file (gmail E (email h)) = Some (Return creds) →
  valid creds = false → expired creds = true → refresh_token creds = true →
  refresh (gmail E (email h)) = Raise e →
  value (authenticate E h w) = Raise e.
Proof.
  intros Ht Hv He Hr Hf. unfold authenticate. rewrite Ht. run_monad.
  rewrite Hv, He, Hr. simpl. by rewrite Hf.
Qed.

(** C2, at the input where the code departs from it: for a handler
    without a session whose stored token has expired, an error of the
    refresh request is not converted to -1; [get_unread_count] raises it
    to its caller. *)
Theorem gmail_refresh_error_propagates E h w creds e :
  service h = false →
  token_file (gmail E (email h)) = Some (Return creds) →
  valid creds = false → expired creds = true → refresh_token creds = true →
  refresh (gmail E (email h)) = Raise e →
  value (gmail_get_unread_count E h w) = Raise e.
Proof.
  intros Hs Ht Hv He Hr Hf.
  pose proof (authenticate_refresh_raises E h w creds e Ht Hv He Hr Hf) as Ha.
  unfold gmail_get_unread_count. rewrite Hs. simpl. unfold bind.
  destruct (authenticate E h w) as [w1 evs1 r1]; simpl in *. by subst.
Qed.

(** C6, at the input where the code departs from it: when the first
    handler of the registry is a Gmail handler whose token refresh fails,
    [check_all_accounts] returns no mapping; it raises the error, and no
    later account is checked. *)
Theorem check_all_accounts_aborts_on_auth_error E c w name h rest creds e :
  handlers c = (name, Gmail h) :: rest →
  service h = false →
  token_file (gmail E (email h)) = Some (Return creds) →
  valid creds = false → expired creds = true → refresh_token creds = true →
  refresh (gmail E (email h)) = Raise e →
  value (check_all_accounts E c w) = Raise e
  ∧ Forall (λ ev, ∀ account op, ev ≠ EvImap account op)
      (emitted (check_all_accounts E c w)).
Proof.
  intros Hc Hs Ht Hv He Hr Hf.
  unfold check_all_accounts. rewrite Hc. simpl.
  unfold gmail_get_unread_count, authenticate. rewrite Hs, Ht. run_monad.
  rewrite Hv, He, Hr. simpl. rewrite Hf. simpl.
  split; [done|]. repeat constructor; intros account op; discriminate.
Qed.

End Gmail.

Lemma gmail_refresh_error_propagates_witness :
  value (email_check.gmail_get_unread_count
           (sample.environment (sample.standing sample.t0)
              sample.gmail_refresh_fails sample.imap_ok)
           (email_check.MkGmailHandler (JStr "Work") (JStr "me@example.org") false)
           sample.empty_world)
  = Raise (LibraryError "TransportError").
Proof.
  apply (gmail_refresh_error_propagates _ _ _ (Credentials false true true));
    reflexivity.
Defined.

Lemma check_all_accounts_aborts_on_auth_error_witness :
  let E := sample.environment (sample.standing sample.t0)
             sample.gmail_refresh_fails sample.imap_ok in
  let c := email_check.MkEmailCounter (email_check.CONFIG_PATH E)
             (JList [sample.work; sample.icloud])
             [(KStr "Work",
               email_check.Gmail
                 (email_check.MkGmailHandler (JStr "Work")
                    (JStr "me@example.org") false));
              (KStr "iCloud", email_check.Imap sample.icloud)] in
  email_check._setup_handlers (email_check.accounts c)
  = Return (email_check.handlers c)
  ∧ value (email_check.check_all_accounts E c sample.empty_world)
    = Raise (LibraryError "TransportError")
  ∧ Forall (λ ev, ∀ account op, ev ≠ EvImap account op)
      (emitted (email_check.check_all_accounts E c sample.empty_world)).
Proof.
  intros E c. split; [reflexivity|].
  apply (check_all_accounts_aborts_on_auth_error E c sample.empty_world
           (KStr "Work")
           (email_check.MkGmailHandler (JStr "Work") (JStr "me@example.org") false)
           [(KStr "iCloud", email_check.Imap sample.icloud)]
           (Credentials false true true)); reflexivity.
Defined.

(** ** The IMAP handler *)

Section Imap.
Import email_check.

Lemma length_split_from s : ∀ cur,
  length (split_from cur s)
  = (token_starts is_space (bool_decide (cur = None)) s
     + match cur with Some _ => 1 | None => 0 end)%nat.
Proof.
  induction s as [|c s IH]; intros cur; simpl.
  - by destruct cur.
  - destruct (is_space c) eqn:Hc.
    + destruct cur; simpl; rewrite IH; simpl; lia.
    + rewrite IH. destruct cur; simpl; lia.
Qed.

(** [len(b.split())] is the number of tokens of [b] that white space
    delimits. *)
Lemma length_bytes_split b : length (bytes_split b) = count_tokens is_space b.
Proof. unfold bytes_split, count_tokens. rewrite length_split_from. simpl. lia. Qed.

Lemma token_starts_only_blanks s : ∀ p,
  only_blanks s = true → token_starts is_space p s = token_starts is_blank p s.
Proof.
  induction s as [|c s IH]; intros p; simpl; [done|].
  intros [Hc Hs]%andb_true_iff. apply Bool.eqb_prop in Hc.
  by rewrite Hc, IH.
Qed.

(** The handler never raises once its account has a name, and what it
    returns is a count or -1. *)
Lemma imap_get_unread_count_returns E account w name :
  getitem account "name" = Return name →
  ∃ n, value (imap_get_unread_count E account w) = Return n ∧ (n = -1 ∨ 0 ≤ n).
Proof.
  intros Hname. unfold imap_get_unread_count, get_password. rewrite Hname.
  run_monad. case_outcomes; eexists; (split; [reflexivity|]); lia.
Qed.

(** A search that the server refuses ends the check at once. *)
Lemma imap_refused_search E account w name status response :
  getitem account "name" = Return name →
  search (imap E account) = Return (status, response) →
  status ≠ "OK" →
  value (imap_get_unread_count E account w) = Return (-1)
  ∧ EvImap account Logout ∉ emitted (imap_get_unread_count E account w).
Proof.
  intros Hname Hsearch Hstatus.
  apply String.eqb_neq in Hstatus.
  unfold imap_get_unread_count, get_password.
  rewrite Hname, Hsearch. run_monad. rewrite Hstatus. simpl.
  case_outcomes; (split; [reflexivity|]).
  all: rewrite ?elem_of_app, ?elem_of_cons, ?elem_of_nil; intros H;
    intuition discriminate.
Qed.

(** C4, at the inputs where the code departs from it: when the
    server refuses the search, when the search raises, or when the session
    does not get as far as the search, [get_unread_count] returns -1 and
    no logout has been attempted. *)
Theorem imap_no_logout_on_failure E account w name :
  getitem account "name" = Return name →
  let r := imap_get_unread_count E account w in
  (∀ status response,
     search (imap E account) = Return (status, response) → status ≠ "OK" →
     value r = Return (-1) ∧ EvImap account Logout ∉ emitted r)
  ∧ (∀ e, search (imap E account) = Raise e →
     value r = Return (-1) ∧ EvImap account Logout ∉ emitted r)
  ∧ (session_opens E account = false →
     value r = Return (-1) ∧ EvImap account Logout ∉ emitted r).
Proof.
  intros Hname r. subst r. split; [|split].
  - intros status response Hs Hne.
    by apply (imap_refused_search E account w name status response).
  - intros e Hs. unfold imap_get_unread_count, get_password.
    rewrite Hname, Hs. run_monad.
    case_outcomes; (split; [reflexivity|]).
    all: rewrite ?elem_of_app, ?elem_of_cons, ?elem_of_nil; intros H;
      intuition discriminate.
  - unfold session_opens, password_obtained. intros Hopen.
    unfold imap_get_unread_count, get_password. rewrite Hname. run_monad.
    case_outcomes; simpl in Hopen; try discriminate Hopen;
      (split; [reflexivity|]).
    all: rewrite ?elem_of_app, ?elem_of_cons, ?elem_of_nil; intros H;
      intuition discriminate.
Qed.

(** C8, as the code has it: a search that reports a status other
    than OK makes [get_unread_count] return -1, and it never raises; when
    the session gets as far as the search, the search reports OK with a
    byte string first in its response, and the logout that follows does
    not raise, the count returned is the number of tokens of that string
    that white space delimits, which is the number of space-delimited
    tokens when the string has no other white space. *)
Theorem imap_get_unread_count_correct E account w name :
  getitem account "name" = Return name →
  let r := imap_get_unread_count E account w in
  (∃ n, value r = Return n ∧ (n = -1 ∨ 0 ≤ n))
  ∧ (∀ status response,
       search (imap E account) = Return (status, response) → status ≠ "OK" →
       value r = Return (-1))
  ∧ (∀ b rest,
       session_opens E account = true →
       search (imap E account) = Return ("OK", Some b :: rest) →
       logout (imap E account) = Return tt →
       value r = Return (Z.of_nat (count_tokens is_space b))
       ∧ (only_blanks b = true →
          value r = Return (Z.of_nat (count_tokens is_blank b)))).
Proof.
  intros Hname r. split; [|split].
  - by apply (imap_get_unread_count_returns E account w name).
  - intros status response Hs Hne.
    by apply (imap_refused_search E account w name status response).
  - intros b rest Hopen Hs Hl.
    assert (Hv : value r = Return (Z.of_nat (count_tokens is_space b))).
    { subst r. unfold session_opens, password_obtained in Hopen.
      repeat (apply andb_true_iff in Hopen as [Hopen ?]).
      repeat match goal with
             | H : is_return _ = true |- _ => apply total_value in H as [? H]
             end.
      unfold imap_get_unread_count, get_password. rewrite Hname.
      run_monad.
      destruct (keyring_get (imap E account)) as [[p|]|]; simpl in *; try done.
      all: repeat match goal with
             | H : _ && _ = true |- _ => apply andb_true_iff in H as [? ?]
             | H : is_return _ = true |- _ => apply total_value in H as [? H]
             end.
      all: repeat match goal with H : _ = Return _ |- _ => rewrite H; simpl end.
      all: by rewrite length_bytes_split. }
    split; [done|]. intros Hb. rewrite Hv. unfold count_tokens.
    by rewrite token_starts_only_blanks.
Qed.

End Imap.

Lemma imap_no_logout_on_failure_witness :
  let E := sample.environment (sample.standing sample.t0) sample.gmail_ok
             sample.imap_search_refused in
  let r := email_check.imap_get_unread_count E sample.icloud sample.empty_world in
  value r = Return (-1) ∧ EvImap sample.icloud Logout ∉ emitted r.
Proof.
  intros E r.
  destruct (imap_no_logout_on_failure E sample.icloud sample.empty_world
              (JStr "iCloud") eq_refl) as [Hrefused _].
  apply (Hrefused "NO" [None]); [reflexivity | discriminate].
Defined.

Lemma logout_failure_discards_count :
  let E := sample.environment (sample.standing sample.t0) sample.gmail_ok
             sample.imap_logout_fails in
  search (imap E sample.icloud) = Return ("OK", [Some "1 2 3"])
  ∧ count_tokens is_blank "1 2 3" = 3%nat
  ∧ value (email_check.imap_get_unread_count E sample.icloud sample.empty_world)
    = Return (-1).
Proof. repeat split. Qed.

Lemma imap_get_unread_count_correct_witness :
  value (email_check.imap_get_unread_count sample.quiet sample.icloud
           sample.empty_world)
  = Return 3.
Proof.
  destruct (imap_get_unread_count_correct sample.quiet sample.icloud
              sample.empty_world (JStr "iCloud") eq_refl) as (_ & _ & Hcount).
  destruct (Hcount "1 2 3" [] eq_refl eq_refl eq_refl) as [_ Hblank].
  apply (Hblank eq_refl).
Defined.

(** Where no check raises, the mapping is as the design note has it: one
    entry per handler of the registry, each a count or -1. *)
Lemma count_of_range E h n :
  count_of E h = Return n → n = -1 ∨ 0 ≤ n.
Proof.
  unfold count_of. destruct h as [g|account]; simpl.
  - unfold bind, ret.
    pose proof (gmail_get_unread_count_range E g (World ∅ 0)) as Hg.
    destruct (email_check.gmail_get_unread_count E g (World ∅ 0))
      as [w1 evs1 [[g' m]|e]]; simpl in *; [|done].
    intros [= <-]. by apply (Hg g' m).
  - unfold bind at 1.
    destruct (getitem account "name") as [name|] eqn:Hname.
    + destruct (imap_get_unread_count_returns E account (World ∅ 0) name Hname)
        as (m & Hm & Hr).
      destruct (email_check.imap_get_unread_count E account (World ∅ 0))
        as [w1 evs1 r1]; simpl in *. subst r1. simpl. by intros [= <-].
    + unfold email_check.imap_get_unread_count. rewrite Hname. by run_monad.
Qed.

Lemma counts_of_range E items R :
  counts_of E items = Return R → Forall (λ kv, snd kv = -1 ∨ 0 ≤ snd kv) R.
Proof.
  revert R. induction items as [|[k h] items IH]; intros R; simpl.
  - intros [= <-]. constructor.
  - destruct (count_of E h) as [n|] eqn:Hn; [|done].
    destruct (counts_of E items) as [R'|]; [|done].
    intros [= <-]. constructor; [by apply (count_of_range E h) | by apply IH].
Qed.

Lemma check_all_accounts_range E c w c' R :
  unique_keys (email_check.handlers c) = true →
  value (email_check.check_all_accounts E c w) = Return (c', R) →
  map fst R = map fst (email_check.handlers c)
  ∧ Forall (λ kv, snd kv = -1 ∨ 0 ≤ snd kv) R.
Proof.
  intros Hu Hv. pose proof (check_all_accounts_counts E c w Hu) as Hc.
  rewrite Hv in Hc. simpl in Hc. symmetry in Hc.
  split; [by apply (counts_of_keys E) | by apply (counts_of_range E (email_check.handlers c))].
Qed.

(** ** The command line of the checker *)

Section Cli.
Import email_check.

Lemma setup_handler_descriptor H a :
  descriptor a = true → is_return (setup_handler H a) = true.
Proof.
  unfold descriptor, setup_handler. intros Hd.
  repeat (apply andb_true_iff in Hd as [Hd ?]).
  destruct (getitem a "name") as [name|]; [|done].
  repeat match goal with
         | H : is_return _ = true |- _ => apply total_value in H as [? H]; rewrite H
         end.
  by destruct (eq_str _ _).
Qed.

(** The registry can be built for every list of account descriptors. *)
Lemma setup_loop_descriptors l : ∀ H,
  forallb descriptor l = true → is_return (setup_loop l H) = true.
Proof.
  induction l as [|a l IH]; intros H Hl; simpl; [done|].
  apply andb_true_iff in Hl as [Ha Hl].
  pose proof (setup_handler_descriptor H a Ha) as Hs.
  destruct (setup_handler H a); [by apply IH | done].
Qed.

Lemma _load_config_events path w :
  Forall (λ e, account_event e = false) (emitted (_load_config path w)).
Proof.
  unfold _load_config, exists_, json_load, json_dump. run_monad.
  destruct (fs w !! path) as [[j| |]|] eqn:Hp; simpl; rewrite ?Hp; simpl;
    repeat constructor.
Qed.

(** [EmailCounter()] in one piece. *)
Lemma new_EmailCounter_eq E w :
  new_EmailCounter E w
  = match _load_config (CONFIG_PATH E) w with
    | Reply w' evs r =>
        Reply w' (EvMkdir (CONFIG_DIR E) :: EvMkdir (TOKENS_DIR E) :: evs)
          match r with
          | Return accounts =>
              result_map (MkEmailCounter (CONFIG_PATH E) accounts)
                (_setup_handlers accounts)
          | Raise e => Raise e
          end
    end.
Proof.
  unfold new_EmailCounter, _ensure_config_dir. run_monad.
  destruct (_load_config (CONFIG_PATH E) w) as [w1 evs1 [accounts|e]];
    simpl; [|done].
  destruct (_setup_handlers accounts); simpl; by rewrite app_nil_r.
Qed.

(** Without a configuration file the template is what is loaded. *)
Lemma _load_config_template path w :
  fs w !! path = None → value (_load_config path w) = Return default_config.
Proof.
  intros Hp. unfold _load_config, exists_, json_dump. run_monad.
  by rewrite Hp.
Qed.

(** C7: when --configure is not given and the configuration that is
    loaded is a list of account descriptors whose first has the address of
    the template, [main] returns 1 having done no more than build the
    counter and print its two messages: no handler is asked for a count,
    and nothing reaches an account. *)
Theorem placeholder_config_exits_1 E a w first rest :
  configure a = false →
  value (_load_config (CONFIG_PATH E) w) = Return (JList (first :: rest)) →
  forallb descriptor (first :: rest) = true →
  get first "email" = Return (JStr placeholder_email) →
  let r := main E a w in
  value r = Return 1
  ∧ emitted r
    = emitted (new_EmailCounter E w)
        ++ [EvLog WARNING "Please edit the config file before running";
            EvPrint ("Edit the configuration file at: " +:+ CONFIG_PATH E)]
  ∧ after r = after (new_EmailCounter E w)
  ∧ Forall (λ e, account_event e = false) (emitted r).
Proof.
  intros Hc Hl Hd He r.
  pose proof (_load_config_events (CONFIG_PATH E) w) as Hev.
  pose proof (setup_loop_descriptors (first :: rest) [] Hd) as Hs.
  apply total_value in Hs as [H Hs].
  assert (Hr : r = Reply (after (new_EmailCounter E w))
                 (emitted (new_EmailCounter E w)
                    ++ [EvLog WARNING "Please edit the config file before running";
                        EvPrint ("Edit the configuration file at: "
                                 +:+ CONFIG_PATH E)])
                 (Return 1)).
  { subst r. unfold main. rewrite Hc. unfold bind at 1.
    rewrite new_EmailCounter_eq.
    destruct (_load_config (CONFIG_PATH E) w) as [w1 evs1 r1]; simpl in Hl.
    subst r1. unfold _setup_handlers. cbn [py_iter]. rewrite Hs.
    cbn [result_map accounts]. run_monad. by rewrite He. }
  rewrite Hr. simpl. repeat split.
  rewrite new_EmailCounter_eq.
  destruct (_load_config (CONFIG_PATH E) w) as [w1 evs1 r1]; simpl in *.
  repeat constructor. apply Forall_app. split; [done|]. repeat constructor.
Qed.

End Cli.

(** The witness is the first run of all: no configuration file yet, so
    that the template is written and loaded. *)
Lemma placeholder_config_exits_1_witness :
  let r := email_check.main sample.quiet (email_check.Args false false false)
             sample.empty_world in
  value r = Return 1
  ∧ emitted r
    = emitted (email_check.new_EmailCounter sample.quiet sample.empty_world)
        ++ [EvLog WARNING "Please edit the config file before running";
            EvPrint ("Edit the configuration file at: "
                     +:+ email_check.CONFIG_PATH sample.quiet)]
  ∧ after r = after (email_check.new_EmailCounter sample.quiet sample.empty_world)
  ∧ Forall (λ e, account_event e = false) (emitted r).
Proof.
  apply (placeholder_config_exits_1 sample.quiet
           (email_check.Args false false false) sample.empty_world
           (JDict [("name", JStr "Gmail 1"); ("email", JStr "your.email@gmail.com");
                   ("type", JStr "gmail")])
           [JDict [("name", JStr "Gmail 2");
                   ("email", JStr "your.second.email@gmail.com");
                   ("type", JStr "gmail")];
            JDict [("name", JStr "iCloud"); ("email", JStr "your.email@icloud.com");
                   ("type", JStr "icloud");
                   ("imap_server", JStr "imap.mail.me.com");
                   ("imap_port", JInt 993)]]);
    reflexivity.
Defined.

(** ** Accounts that share a name *)

Section Duplicates.
Import email_check.


End Duplicates.


(** ** The result store *)

(** The checker and the reporter do not agree on where the store is. *)
Lemma results_paths_differ E :
  email_check.RESULTS_PATH E ≠ show_status.RESULTS_PATH E.
Proof.
  unfold email_check.RESULTS_PATH, show_status.RESULTS_PATH,
    email_check.CONFIG_DIR, show_status.CONFIG_DIR, path_join.
  rewrite !append_assoc. intros H%String.app_inj. discriminate H.
Qed.

Lemma save_results_fs E results w :
  fs (after (email_check.save_results E results w))
  = <[email_check.RESULTS_PATH E :=
        FJson (email_check.result_document (isoformat E (clock E (ticks w)))
                 (loaded_counts results))]> (fs w).
Proof. reflexivity. Qed.

Lemma reporter_without_file E a w :
  fs w !! show_status.RESULTS_PATH E = None →
  show_status.legacy_path a = false →
  show_status.main E a w
  = Reply w [EvPrint "No email status data found. Run email_counter first.";
             EvPrint ("Expected path: " +:+ show_status.RESULTS_PATH E)]
      (Return 1).
Proof.
  intros Hnone Hl. unfold show_status.main, exists_, bind. cbv beta.
  rewrite Hnone, Hl. simpl. unfold ret. rewrite Hnone. reflexivity.
Qed.

(** C1, at the inputs where the code departs from it: [save_results]
    leaves the file the reporter reads as it was, whatever the results;
    and where that file was absent the reporter, run on the default path
    without flags after [save_results], finds no data and returns 1, so
    that it yields neither the counts nor the timestamp that were saved. *)
Theorem saved_results_not_seen_by_reporter E results w :
  let w1 := after (email_check.save_results E results w) in
  let r := show_status.main E (show_status.Args false false) w1 in
  fs w1 !! show_status.RESULTS_PATH E = fs w !! show_status.RESULTS_PATH E
  ∧ (fs w !! show_status.RESULTS_PATH E = None →
     value r = Return 1
     ∧ emitted r
       = [EvPrint "No email status data found. Run email_counter first.";
          EvPrint ("Expected path: " +:+ show_status.RESULTS_PATH E)]).
Proof.
  intros w1 r.
  assert (Hfs : fs w1 !! show_status.RESULTS_PATH E
                = fs w !! show_status.RESULTS_PATH E).
  { subst w1. rewrite save_results_fs.
    apply lookup_insert_ne, results_paths_differ. }
  split; [done|]. intros Hnone. rewrite Hnone in Hfs.
  subst r. by rewrite (reporter_without_file E _ w1 Hfs).
Qed.

Lemma saved_results_not_seen_by_reporter_witness :
  let w1 := after (email_check.save_results sample.quiet [(KStr "Work", 3)]
                     sample.empty_world) in
  let r := show_status.main sample.quiet (show_status.Args false false) w1 in
  value r = Return 1
  ∧ emitted r
    = [EvPrint "No email status data found. Run email_counter first.";
       EvPrint ("Expected path: " +:+ show_status.RESULTS_PATH sample.quiet)].
Proof.
  intros w1 r.
  destruct (saved_results_not_seen_by_reporter sample.quiet [(KStr "Work", 3)]
              sample.empty_world) as [_ Habsent].
  apply Habsent. reflexivity.
Defined.

Lemma assoc_set_fresh {V} k (v : V) (d : list (string * V)) :
  k ∉ map fst d → assoc_set k v d = d ++ [(k, v)].
Proof.
  induction d as [|[k0 v0] d IH]; simpl; [done|].
  intros Hk. apply not_elem_of_cons in Hk as [Hne Hk].
  destruct (String.eqb k0 k) eqn:Heq.
  - apply String.eqb_eq in Heq. congruence.
  - by rewrite IH.
Qed.

Lemma load_members_from (members : list (string * json)) : ∀ acc,
  NoDup (map fst (acc ++ members)) →
  fold_left (λ d kv, assoc_set (fst kv) (snd kv) d) members acc = acc ++ members.
Proof.
  induction members as [|[k v] members IH]; intros acc Hnd; simpl.
  - by rewrite app_nil_r.
  - rewrite assoc_set_fresh.
    + rewrite IH; rewrite <- app_assoc; done.
    + rewrite map_app in Hnd. simpl in Hnd.
      apply NoDup_app in Hnd as (_ & Hd & _). intros Hin.
      apply (Hd k Hin). left.
Qed.

Lemma load_members_nodup members :
  NoDup (map fst members) → load_members members = members.
Proof. intros H. unfold load_members. by rewrite load_members_from. Qed.

(** What the round trip is on the checker's own path: the document read
    back has the timestamp that was written and, for names that are written
    differently, the counts that were written. *)
Lemma save_results_read_back E results w :
  let w1 := after (email_check.save_results E results w) in
  let stamp := isoformat E (clock E (ticks w)) in
  ∃ data,
    value (json_load (email_check.RESULTS_PATH E) w1) = Return data
    ∧ get data "timestamp" = Return (JStr stamp)
    ∧ get_default data "counts" (JDict []) = Return (JDict (loaded_counts results))
    ∧ (NoDup (map json_key (map fst results)) →
       loaded_counts results = written_counts results).
Proof.
  intros w1 stamp. eexists. repeat split.
  - subst w1. unfold json_load. rewrite save_results_fs. simpl.
    by rewrite lookup_insert_eq.
  - done.
  - done.
  - intros Hnd. apply load_members_nodup.
    unfold written_counts. rewrite map_map. simpl. by rewrite <- map_map.
Qed.

(** ** The status reporter *)

(** *** What a computation leaves as it was *)

Section Keeps.
Variable P : world → world → Prop.
Hypothesis P_refl : ∀ w, P w w.
Hypothesis P_trans : ∀ w1 w2 w3, P w1 w2 → P w2 w3 → P w1 w3.








End Keeps.







(** *** What a computation does with the clock *)










Section Once.
Variable E : env.







End Once.






(** ** Instances of the lemmas above *)

Lemma format_time_ago_examples_witness :
  value (show_status.format_time_ago
           (sample.environment (sample.standing (sample.t0 + secs 45))
              sample.gmail_ok sample.imap_ok)
           (JStr sample.stamp) sample.empty_world)
  = Return "45 seconds ago".
Proof.
  destruct (format_time_ago_examples
              (sample.environment (sample.standing (sample.t0 + secs 45))
                 sample.gmail_ok sample.imap_ok)
              sample.stamp sample.t0 sample.empty_world eq_refl) as (H45 & _).
  apply H45. reflexivity.
Defined.

Lemma check_all_accounts_range_witness :
  let c := email_check.MkEmailCounter (email_check.CONFIG_PATH sample.quiet)
             (JList [sample.work; sample.icloud])
             [(KStr "Work",
               email_check.Gmail
                 (email_check.MkGmailHandler (JStr "Work")
                    (JStr "me@example.org") false));
              (KStr "iCloud", email_check.Imap sample.icloud)] in
  let R := [(KStr "Work", 2); (KStr "iCloud", 3)] in
  map fst R = map fst (email_check.handlers c)
  ∧ Forall (λ kv, snd kv = -1 ∨ 0 ≤ snd kv) R.
Proof.
  intros c R.
  apply (check_all_accounts_range sample.quiet c sample.empty_world
           (email_check.MkEmailCounter (email_check.CONFIG_PATH sample.quiet)
              (JList [sample.work; sample.icloud])
              [(KStr "Work",
                email_check.Gmail
                  (email_check.MkGmailHandler (JStr "Work")
                     (JStr "me@example.org") true));
               (KStr "iCloud", email_check.Imap sample.icloud)])
           R); reflexivity.
Defined.

(** A session whose list query raises. *)
Lemma gmail_with_service_returns_witness :
  let E := sample.environment (sample.standing sample.t0)
             sample.gmail_query_fails sample.imap_ok in
  let h := email_check.MkGmailHandler (JStr "Work") (JStr "me@example.org") true in
  let r := email_check.gmail_get_unread_count E h sample.empty_world in
  value r = Return (h, -1)
  ∧ emitted r
    = [EvGmail (JStr "me@example.org") ListUnread;
       EvLog ERROR
         "Error getting unread count for {self.account_name}: {str(e)}"].
Proof.
  intros E h r.
  destruct (gmail_with_service_returns E h sample.empty_world eq_refl)
    as (_ & _ & H & _).
  exact (H (LibraryError "HttpError") eq_refl).
Defined.

(** * Further properties of the code *)

(** ** Stepping through a computation *)

Lemma bind_return {A B} (m : M A) (k : A → M B) w w' evs a :
  m w = Reply w' evs (Return a) →
  bind m k w
  = Reply (after (k a w')) (evs ++ emitted (k a w')) (value (k a w')).
Proof. intros H. unfold bind. rewrite H. by destruct (k a w'). Qed.

Lemma bind_raise {A B} (m : M A) (k : A → M B) w w' evs e :
  m w = Reply w' evs (Raise e) → bind m k w = Reply w' evs (Raise e).
Proof. intros H. unfold bind. by rewrite H. Qed.

Lemma bind_pure {A B} (m : M A) (k : A → M B) w a :
  m w = Reply w [] (Return a) → bind m k w = k a w.
Proof. intros H. unfold bind. rewrite H. by destruct (k a w). Qed.

Lemma bind_lift {A B} (a : A) (k : A → M B) w :
  bind (lift (Return a)) k w = k a w.
Proof. by apply bind_pure. Qed.

Lemma bind_assoc {A B C} (m : M A) (k : A → M B) (k' : B → M C) w :
  bind (bind m k) k' w = bind m (λ a, bind (k a) k') w.
Proof.
  unfold bind. destruct (m w) as [w1 e1 [a|e]]; [|done].
  destruct (k a w1) as [w2 e2 [b|e]]; [|done].
  destruct (k' b w2). by rewrite app_assoc.
Qed.

Lemma bind_ext {A B} (m : M A) (k k' : A → M B) w :
  (∀ a w', k a w' = k' a w') → bind m k w = bind m k' w.
Proof.
  intros H. unfold bind. destruct (m w) as [w1 e1 [a|e]]; [|done].
  by rewrite H.
Qed.

Lemma bind_value_inv {A B} (m : M A) (k : A → M B) w c :
  value (bind m k w) = Return c → ∃ a w', value (k a w') = Return c.
Proof.
  unfold bind. destruct (m w) as [w1 e1 [a|e]]; simpl; [|done].
  intros H. exists a, w1. by destruct (k a w1).
Qed.

Lemma then_ret_value {A B} (m : M A) (b : B) w c :
  value (bind m (λ _, ret b) w) = Return c → c = b.
Proof.
  unfold bind, ret. destruct (m w) as [w1 e1 [a|e]]; simpl; congruence.
Qed.

Lemma try_return {A} (m : M A) (h : exn → M A) w w' evs a :
  m w = Reply w' evs (Return a) → try_except m h w = Reply w' evs (Return a).
Proof. intros H. unfold try_except. by rewrite H. Qed.

Lemma try_raise {A} (m : M A) (h : exn → M A) w w' evs e :
  m w = Reply w' evs (Raise e) →
  try_except m h w
  = Reply (after (h e w')) (evs ++ emitted (h e w')) (value (h e w')).
Proof. intros H. unfold try_except. rewrite H. by destruct (h e w'). Qed.

(** A [try] whose handler always returns never raises. *)
Lemma try_except_total {A} (P : A → Prop) (m : M A) (h : exn → M A) w :
  (∀ a, value (m w) = Return a → P a) →
  (∀ e w', ∃ a, value (h e w') = Return a ∧ P a) →
  ∃ a, value (try_except m h w) = Return a ∧ P a.
Proof.
  intros Hm Hh. unfold try_except.
  destruct (m w) as [w1 e1 [a|e]]; simpl in *; [eauto|].
  destruct (Hh e w1) as (a & Ha & HP). destruct (h e w1); simpl in *. eauto.
Qed.

Lemma exists_absent path w :
  fs w !! path = None → exists_ path w = Reply w [] (Return false).
Proof. intros H. unfold exists_. by rewrite H. Qed.

Lemma exists_present path w f :
  fs w !! path = Some f → exists_ path w = Reply w [] (Return true).
Proof. intros H. unfold exists_. by rewrite H. Qed.

Lemma for_each_app {A} (l1 l2 : list A) (body : A → M unit) w :
  for_each (l1 ++ l2) body w
  = bind (for_each l1 body) (λ _, for_each l2 body) w.
Proof.
  revert w. induction l1 as [|x l1 IH]; intros w; simpl.
  - by rewrite (bind_pure (ret tt) _ _ _ eq_refl).
  - rewrite bind_assoc. apply bind_ext. intros _ w'. apply IH.
Qed.

(** ** The Gmail handler: authentication and count *)

Section Authentication.
Import email_check.

(** With no token that can be used or refreshed and no credentials.json,
    [authenticate] returns [False] and leaves the handler as it was,
    [get_unread_count] returns -1, and the only call made for the account
    is the reading of the token file: no refresh, no authorization flow,
    no token written, no client built, no query. *)
Theorem authenticate_without_client_secret E h w :
  (token_file (gmail E (email h)) = None
   ∨ ∃ c, token_file (gmail E (email h)) = Some (Return c)
          ∧ valid c = false ∧ expired c && refresh_token c = false) →
  client_secret_exists (gmail E (email h)) = false →
  service h = false →
  value (authenticate E h w) = Return (h, false)
  ∧ value (gmail_get_unread_count E h w) = Return (h, -1)
  ∧ Forall (λ ev, ∀ op, ev = EvGmail (email h) op → op = TokenLoad)
      (emitted (gmail_get_unread_count E h w)).
Proof.
  intros Htok Hsec Hs.
  unfold gmail_get_unread_count, authenticate. rewrite Hs.
  destruct Htok as [Ht | (c & Ht & Hv & Hr)]; rewrite Ht; run_monad.
  - rewrite Hsec. simpl. repeat split.
    repeat constructor; intros op; discriminate.
  - rewrite Hv, Hr, Hsec. simpl. repeat split.
    repeat constructor; intros op [= <-]; done.
Qed.

(** A stored token that is valid is used as it is: [authenticate] reads
    it and builds the client, and neither refreshes it, nor runs the
    authorization flow, nor writes the token file; it returns [True] with
    the session set unless building the client raises. *)
Theorem valid_token_is_not_rewritten E h w c :
  token_file (gmail E (email h)) = Some (Return c) →
  valid c = true →
  emitted (authenticate E h w)
  = [EvGmail (email h) TokenLoad; EvGmail (email h) Build]
  ∧ value (authenticate E h w)
    = result_map (λ _, (with_service h, true)) (build (gmail E (email h))).
Proof.
  intros Ht Hv. unfold authenticate. rewrite Ht. run_monad. rewrite Hv. simpl.
  by destruct (build (gmail E (email h))).
Qed.

(** A check that returns a count (not -1) leaves the handler with its
    session set, for the same address; a later check with that handler
    does not authenticate again: it makes the list query and nothing
    else. *)
Theorem session_is_kept E h w h' n :
  value (gmail_get_unread_count E h w) = Return (h', n) →
  0 ≤ n →
  service h' = true
  ∧ email h' = email h
  ∧ ∀ w', Forall (λ ev, ev = EvGmail (email h) ListUnread
                        ∨ ∃ msg, ev = EvLog ERROR msg)
            (emitted (gmail_get_unread_count E h' w')).
Proof.
  intros Hv Hn.
  assert (Hq : ∀ g w', Forall (λ ev, ev = EvGmail (email g) ListUnread
                                     ∨ ∃ msg, ev = EvLog ERROR msg)
                         (emitted (gmail_query E g w'))).
  { intros g w'. unfold gmail_query. run_monad.
    case_outcomes;
      repeat first [apply Forall_nil_2
                   | apply Forall_cons_2; [first [by left | by right; eauto]|]]. }
  assert (Hh : service h' = true ∧ email h' = email h).
  { revert Hv. unfold gmail_get_unread_count. destruct (service h) eqn:Hs; simpl.
    - unfold bind, ret. destruct (gmail_query E h w) as [w1 e1 [m|]]; simpl; [|done].
      by intros [= <- <-].
    - unfold bind at 1.
      destruct (authenticate E h w) as [w1 e1 [[h1 ok]|]] eqn:Ha; simpl; [|done].
      assert (Hh1 : ok = true → service h1 = true ∧ email h1 = email h).
      { intros ->. revert Ha. unfold authenticate. run_monad.
        case_outcomes; intros [= <- <- <-]; try done. all: try discriminate. }
      destruct ok; simpl.
      + unfold bind, ret. destruct (gmail_query E h1 w1) as [w2 e2 [m|]]; simpl; [|done].
        intros [= <- <-]. by apply Hh1.
      + unfold ret. simpl. intros [= <- <-]. lia. }
  destruct Hh as [Hs' He']. repeat split; [done..|].
  intros w'. unfold gmail_get_unread_count. rewrite Hs'. simpl.
  unfold bind, ret. specialize (Hq h' w'). rewrite He' in Hq.
  destruct (gmail_query E h' w') as [w2 e2 [m|]]; simpl in *; by rewrite ?app_nil_r.
Qed.

(** With a session, the count is the length of the list under
    "messages" in the answer to the query, and 0 when the answer has no
    such member. *)
Theorem gmail_count_is_length_of_messages E h w d :
  service h = true →
  list_unread (gmail E (email h)) = Return (JDict d) →
  (assoc "messages" d = None →
   value (gmail_get_unread_count E h w) = Return (h, 0))
  ∧ (∀ l, assoc "messages" d = Some (JList l) →
     value (gmail_get_unread_count E h w) = Return (h, Z.of_nat (length l))).
Proof.
  intros Hs Hl. unfold gmail_get_unread_count, gmail_query. rewrite Hs, Hl.
  split; [intros Hm | intros l Hm]; run_monad; by rewrite Hm.
Qed.

End Authentication.

Lemma authenticate_without_client_secret_witness :
  let E := sample.environment (sample.standing sample.t0)
             sample.gmail_unconfigured sample.imap_ok in
  let h := email_check.MkGmailHandler (JStr "Work") (JStr "me@example.org") false in
  value (email_check.authenticate E h sample.empty_world) = Return (h, false)
  ∧ value (email_check.gmail_get_unread_count E h sample.empty_world)
    = Return (h, -1)
  ∧ Forall (λ ev, ∀ op, ev = EvGmail (email_check.email h) op → op = TokenLoad)
      (emitted (email_check.gmail_get_unread_count E h sample.empty_world)).
Proof.
  intros E h.
  apply (authenticate_without_client_secret E h sample.empty_world);
    [left|..]; reflexivity.
Defined.

Lemma valid_token_is_not_rewritten_witness :
  let h := email_check.MkGmailHandler (JStr "Work") (JStr "me@example.org") false in
  emitted (email_check.authenticate sample.quiet h sample.empty_world)
  = [EvGmail (JStr "me@example.org") TokenLoad;
     EvGmail (JStr "me@example.org") Build]
  ∧ value (email_check.authenticate sample.quiet h sample.empty_world)
    = Return (email_check.with_service h, true).
Proof.
  intros h.
  apply (valid_token_is_not_rewritten sample.quiet h sample.empty_world
           (Credentials true false true)); reflexivity.
Defined.

Lemma session_is_kept_witness :
  let h := email_check.MkGmailHandler (JStr "Work") (JStr "me@example.org") false in
  let h' := email_check.with_service h in
  email_check.service h' = true
  ∧ emitted (email_check.gmail_get_unread_count sample.quiet h' sample.empty_world)
    = [EvGmail (JStr "me@example.org") ListUnread].
Proof.
  intros h h'.
  destruct (session_is_kept sample.quiet h sample.empty_world h' 2)
    as (Hs & _ & _); [reflexivity | lia |].
  split; [exact Hs | reflexivity].
Defined.

Lemma gmail_count_is_length_of_messages_witness :
  let h := email_check.MkGmailHandler (JStr "Work") (JStr "me@example.org") true in
  value (email_check.gmail_get_unread_count sample.quiet h sample.empty_world)
  = Return (h, 2).
Proof.
  intros h.
  destruct (gmail_count_is_length_of_messages sample.quiet h sample.empty_world
              [("messages", JList [JNull; JNull])] eq_refl eq_refl) as [_ H].
  apply (H [JNull; JNull]). reflexivity.
Defined.

(** ** Passwords and incomplete descriptors *)

Section Passwords.
Import email_check.

(** [get_password] asks the keyring first.  A stored password is returned
    with nothing printed, asked or written.  Without one the user is
    prompted once and what was typed is written to the keyring under the
    account's address and then returned; if the keyring refuses it, its
    exception is raised instead. *)
Theorem get_password_keyring_first E account w addr :
  getitem account "email" = Return addr →
  let r := get_password E account w in
  (∀ p, keyring_get (imap E account) = Return (Some p) →
     value r = Return p ∧ emitted r = [EvKeyringGet addr])
  ∧ (∀ name p,
       keyring_get (imap E account) = Return None →
       getitem account "name" = Return name →
       getpass (imap E account) = Return p →
       value r = result_map (λ _, p) (keyring_set (imap E account))
       ∧ emitted r
         = [EvKeyringGet addr;
            EvPrintFmt "Enter password for {} ({}):" [name; addr];
            EvPrompt; EvKeyringSet addr]).
Proof.
  intros Ha r. subst r. unfold get_password. rewrite Ha. split.
  - intros p Hk. rewrite Hk. by run_monad.
  - intros name p Hk Hn Hp. rewrite Hk, Hn, Hp. run_monad.
    by destruct (keyring_get (imap E account)), (keyring_set (imap E account)).
Qed.

(** A check of an IMAP account prompts and writes to the keyring only when
    the keyring holds no password for it: with a stored password, or a
    keyring that raises, the check asks nothing and stores nothing,
    however it ends. *)
Theorem imap_check_prompts_only_without_stored_password E account w :
  keyring_get (imap E account) ≠ Return None →
  let r := imap_get_unread_count E account w in
  (EvPrompt ∉ emitted r) ∧ ∀ addr, EvKeyringSet addr ∉ emitted r.
Proof.
  intros Hk r. subst r. unfold imap_get_unread_count, get_password.
  destruct (keyring_get (imap E account)) as [[p|]|e] eqn:Hg; [|done|];
    run_monad; case_outcomes.
  all: (split; [|intros addr']).
  all: rewrite ?elem_of_app, ?elem_of_cons, ?elem_of_nil; intros H;
    intuition discriminate.
Qed.

(** A descriptor that names no server or no port is checked without any
    call to the network, the keyring or the user: the missing key is
    caught, logged, and the count is -1. *)
Theorem imap_incomplete_descriptor E account w name :
  getitem account "name" = Return name →
  is_return (getitem account "imap_server")
  && is_return (getitem account "imap_port") = false →
  imap_get_unread_count E account w
  = Reply w [EvLog ERROR "Error checking {name}: {str(e)}"] (Return (-1)).
Proof.
  intros Hn Hd. unfold imap_get_unread_count. rewrite Hn. run_monad.
  destruct (getitem account "imap_server"); simpl in *; [|done].
  destruct (getitem account "imap_port"); simpl in *; done.
Qed.

End Passwords.

Lemma get_password_keyring_first_witness :
  let r := email_check.get_password sample.quiet sample.icloud sample.empty_world in
  value r = Return "secret" ∧ emitted r = [EvKeyringGet (JStr "me@icloud.com")].
Proof.
  intros r.
  destruct (get_password_keyring_first sample.quiet sample.icloud
              sample.empty_world (JStr "me@icloud.com") eq_refl) as [H _].
  apply (H "secret"). reflexivity.
Defined.

Lemma imap_check_prompts_only_without_stored_password_witness :
  let r := email_check.imap_get_unread_count sample.quiet sample.icloud
             sample.empty_world in
  (EvPrompt ∉ emitted r) ∧ ∀ addr, EvKeyringSet addr ∉ emitted r.
Proof.
  apply (imap_check_prompts_only_without_stored_password sample.quiet
           sample.icloud sample.empty_world).
  discriminate.
Defined.

(** The descriptor of type oauth_mail gets the IMAP handler and names no
    server. *)
Lemma imap_incomplete_descriptor_witness :
  email_check.imap_get_unread_count sample.quiet sample.oauth sample.empty_world
  = Reply sample.empty_world [EvLog ERROR "Error checking {name}: {str(e)}"]
      (Return (-1)).
Proof.
  apply (imap_incomplete_descriptor sample.quiet sample.oauth sample.empty_world
           (JStr "Work")); reflexivity.
Defined.

(** ** The configuration file and the registry *)

Section Configuration.
Import email_check.

(** Without a configuration file [_load_config] writes the template,
    restricts the file to its owner (mode 0o600) and returns the template;
    loading again then returns the template from the file, with nothing
    logged and nothing written. *)
Theorem load_config_template_round_trip path w :
  fs w !! path = None →
  let r := _load_config path w in
  value r = Return default_config
  ∧ fs (after r) = <[path := FJson default_config]> (fs w)
  ∧ EvChmod path 384 ∈ emitted r
  ∧ _load_config path (after r) = Reply (after r) [] (Return default_config).
Proof.
  intros Hp r. subst r. unfold _load_config, exists_, json_dump, json_load.
  run_monad. rewrite Hp. simpl. rewrite !lookup_insert_eq. simpl.
  repeat split; [set_solver | by rewrite lookup_insert_eq].
Qed.

(** A configuration file that cannot be read as JSON is fatal in every
    mode of the checker, --configure included: once the directories are
    made, [main] raises the exception of the reading and touches no file.
    Text that is not JSON raises the decoder's exception, and the error is
    logged first; bytes that are not text raise UnicodeDecodeError, which
    the [except] clause of [_load_config] does not name, so that nothing is
    logged. *)
Theorem invalid_config_is_fatal E a w f :
  fs w !! CONFIG_PATH E = Some f →
  (∀ j, f ≠ FJson j) →
  let r := main E a w in
  value r = Raise (match f with
                   | FNotText => UnicodeDecodeError
                   | _ => JSONDecodeError
                   end)
  ∧ after r = w
  ∧ emitted r
    = EvMkdir (CONFIG_DIR E) :: EvMkdir (TOKENS_DIR E)
        :: match f with
           | FInvalid => [EvLog ERROR "Config file is not valid JSON"]
           | _ => []
           end.
Proof.
  intros Hp Hf r.
  assert (Hl : _load_config (CONFIG_PATH E) w
               = Reply w
                   match f with
                   | FInvalid => [EvLog ERROR "Config file is not valid JSON"]
                   | _ => []
                   end
                   (Raise (match f with
                           | FNotText => UnicodeDecodeError
                           | _ => JSONDecodeError
                           end))).
  { unfold _load_config, exists_, json_load. run_monad.
    rewrite Hp. simpl. rewrite Hp. destruct f as [j| |]; [by destruct (Hf j)|done..]. }
  assert (Hn : new_EmailCounter E w
               = Reply w
                   (EvMkdir (CONFIG_DIR E) :: EvMkdir (TOKENS_DIR E)
                      :: match f with
                         | FInvalid =>
                             [EvLog ERROR "Config file is not valid JSON"]
                         | _ => []
                         end)
                   (Raise (match f with
                           | FNotText => UnicodeDecodeError
                           | _ => JSONDecodeError
                           end))).
  { rewrite new_EmailCounter_eq, Hl. reflexivity. }
  subst r. unfold main, configure_account_passwords.
  destruct (configure a); rewrite ?(bind_raise _ _ _ _ _ _ (bind_raise _ _ _ _ _ _ Hn)),
    ?(bind_raise _ _ _ _ _ _ Hn); done.
Qed.

(** What the registry asks of a descriptor: a type, and a name that can
    be a key; the address only when the type is "gmail".  A descriptor of
    another type is registered without an address, a server or a port. *)
Theorem setup_handler_accepts H a :
  is_return (setup_handler H a) = true
  ↔ ∃ ty name,
      getitem a "type" = Return ty
      ∧ getitem a "name" = Return name
      ∧ is_return (hashable name) = true
      ∧ (eq_str ty "gmail" = true → is_return (getitem a "email") = true).
Proof.
  unfold setup_handler. split.
  - destruct (getitem a "type") as [ty|]; [|done].
    destruct (eq_str ty "gmail") eqn:Hg;
      destruct (getitem a "name") as [name|]; try done.
    + destruct (getitem a "email"); [|done].
      destruct (hashable name) eqn:Hh; [|done]. intros _.
      exists ty, name. rewrite Hh. repeat split; done.
    + destruct (hashable name) eqn:Hh; [|done]. intros _.
      exists ty, name. rewrite Hh, Hg. repeat split; done.
  - intros (ty & name & -> & -> & Hh & He).
    destruct (hashable name); [|done].
    destruct (eq_str ty "gmail"); [|done].
    destruct (getitem a "email"); [done|]. by specialize (He eq_refl).
Qed.




End Configuration.

Lemma load_config_template_round_trip_witness :
  let path := email_check.CONFIG_PATH sample.quiet in
  let r := email_check._load_config path sample.empty_world in
  value r = Return email_check.default_config
  ∧ fs (after r) = <[path := FJson email_check.default_config]> ∅
  ∧ EvChmod path 384 ∈ emitted r
  ∧ email_check._load_config path (after r)
    = Reply (after r) [] (Return email_check.default_config).
Proof.
  intros path r.
  apply (load_config_template_round_trip path sample.empty_world).
  reflexivity.
Defined.

(** With --configure, for a file that is not JSON and for one that is not
    text. *)
Lemma invalid_config_is_fatal_witness :
  let E := sample.quiet in
  let a := email_check.Args false false true in
  let made := [EvMkdir (email_check.CONFIG_DIR E);
               EvMkdir (email_check.TOKENS_DIR E)] in
  (value (email_check.main E a (sample.broken_config E)) = Raise JSONDecodeError
   ∧ after (email_check.main E a (sample.broken_config E))
     = sample.broken_config E
   ∧ emitted (email_check.main E a (sample.broken_config E))
     = made ++ [EvLog ERROR "Config file is not valid JSON"])
  ∧ (value (email_check.main E a (sample.binary_config E))
     = Raise UnicodeDecodeError
     ∧ after (email_check.main E a (sample.binary_config E))
       = sample.binary_config E
     ∧ emitted (email_check.main E a (sample.binary_config E)) = made).
Proof.
  intros E a made. split.
  - apply (invalid_config_is_fatal E a (sample.broken_config E) FInvalid);
      [apply lookup_singleton_eq | discriminate].
  - apply (invalid_config_is_fatal E a (sample.binary_config E) FNotText);
      [apply lookup_singleton_eq | discriminate].
Defined.

(** A descriptor with a name and a type only is registered. *)
Lemma setup_handler_accepts_witness :
  is_return (email_check.setup_handler [] sample.bare) = true.
Proof.
  apply (setup_handler_accepts [] sample.bare).
  exists (JStr "imap"), (JStr "Spare").
  split; [reflexivity|]. split; [reflexivity|]. split; [reflexivity|].
  discriminate.
Defined.


(** ** The events of a computation *)

Section Emits.
Variable P : event → Prop.

Lemma emits_only_ret {A} (a : A) : emits_only P (ret a).
Proof. intros w. constructor. Qed.

Lemma emits_only_lift {A} (r : result A) : emits_only P (lift r).
Proof. intros w. constructor. Qed.

Lemma emits_only_emit e : P e → emits_only P (emit e).
Proof. intros He w. by repeat constructor. Qed.

Lemma emits_only_exists_ path : emits_only P (exists_ path).
Proof. intros w. constructor. Qed.

Lemma emits_only_json_load path : emits_only P (json_load path).
Proof. intros w. constructor. Qed.

Lemma emits_only_json_dump path j : emits_only P (json_dump path j).
Proof. intros w. constructor. Qed.

Lemma emits_only_bind {A B} (m : M A) (k : A → M B) :
  emits_only P m → (∀ a, emits_only P (k a)) → emits_only P (bind m k).
Proof.
  intros Hm Hk w. unfold bind. specialize (Hm w).
  destruct (m w) as [w1 e1 [a|e]]; simpl in *; [|done].
  specialize (Hk a w1). destruct (k a w1); simpl in *. by apply Forall_app.
Qed.

Lemma emits_only_try_except {A} (m : M A) (h : exn → M A) :
  emits_only P m → (∀ e, emits_only P (h e)) → emits_only P (try_except m h).
Proof.
  intros Hm Hh w. unfold try_except. specialize (Hm w).
  destruct (m w) as [w1 e1 [a|e]]; simpl in *; [done|].
  specialize (Hh e w1). destruct (h e w1); simpl in *. by apply Forall_app.
Qed.

Lemma emits_only_for_each {A} (l : list A) (body : A → M unit) :
  (∀ x, emits_only P (body x)) → emits_only P (for_each l body).
Proof.
  intros Hb. induction l as [|x l IH]; simpl.
  - apply emits_only_ret.
  - by apply emits_only_bind.
Qed.

End Emits.

Ltac emits_step :=
  first
    [ apply emits_only_ret | apply emits_only_lift
    | apply emits_only_exists_ | apply emits_only_json_load
    | apply emits_only_json_dump
    | apply emits_only_bind; [|intros ?]
    | apply emits_only_try_except; [|intros ?]
    | apply emits_only_for_each; intros ?
    | apply emits_only_emit
    | match goal with
      | |- emits_only _ (if ?b then _ else _) => destruct b
      | |- emits_only _ (match ?x with _ => _ end) => destruct x
      | |- emits_only _ (let _ := _ in _) => cbv zeta
      end ].

(** ** The exit code of the checker *)

Section ExitCode.
Import email_check.

(** With --configure no account is checked: of the events that reach an
    account there are only prompts and writes to the keyring (no call to
    a mail server or to the OAuth service, no reading of the keyring), and
    when [main] returns, it returns 0. *)
Theorem configure_never_checks E a w :
  configure a = true →
  let r := main E a w in
  Forall (λ ev, account_event ev = true →
                ev = EvPrompt ∨ ∃ addr, ev = EvKeyringSet addr) (emitted r)
  ∧ ∀ code, value r = Return code → code = 0.
Proof.
  intros Hc r. subst r. unfold main. rewrite Hc. split.
  - revert w.
    change (emits_only (λ ev, account_event ev = true →
                              ev = EvPrompt ∨ ∃ addr, ev = EvKeyringSet addr)
              (configure_account_passwords E ;;; ret 0)).
    unfold configure_account_passwords, new_EmailCounter, _ensure_config_dir,
      _load_config, print, log.
    repeat emits_step; simpl; try done; eauto.
  - intros code. unfold bind, ret.
    destruct (configure_account_passwords E w) as [w1 e1 [[]|e]]; simpl;
      congruence.
Qed.

(** A configuration that is an empty list makes [main] raise IndexError:
    the first account is read before the [try], once the counter is
    built. *)
Theorem empty_config_raises E a w :
  configure a = false →
  value (_load_config (CONFIG_PATH E) w) = Return (JList []) →
  let r := main E a w in
  value r = Raise IndexError
  ∧ emitted r = emitted (new_EmailCounter E w)
  ∧ after r = after (new_EmailCounter E w).
Proof.
  intros Hc Hl r. subst r.
  pose proof (new_EmailCounter_eq E w) as Hn.
  destruct (_load_config (CONFIG_PATH E) w) as [w1 evs1 r1]; simpl in Hl.
  subst r1. simpl in Hn.
  unfold main. rewrite Hc, (bind_return _ _ _ _ _ _ Hn), Hn. simpl.
  by rewrite app_nil_r.
Qed.

Lemma save_results_eq E results w :
  save_results E results w
  = Reply {| fs := <[RESULTS_PATH E :=
                       FJson (result_document (isoformat E (clock E (ticks w)))
                                (loaded_counts results))]> (fs w);
             ticks := S (ticks w) |}
      [EvChmod (RESULTS_PATH E) 420; EvLog INFO "Results saved to {RESULTS_PATH}"]
      (Return tt).
Proof. reflexivity. Qed.

Lemma print_counts_lines results w :
  print_counts results w
  = Reply w (map (λ kv, EvPrint (status_line (str_key (fst kv)) (snd kv)))
               results)
      (Return tt).
Proof.
  unfold print_counts. induction results as [|[k n] l IH]; [done|].
  cbn [map for_each fst snd]. unfold status_line.
  destruct (0 <=? n);
    by rewrite (bind_return (print _) _ _ _ _ _ eq_refl), IH.
Qed.

(** Once the counter is built from a configuration that is not the
    template, [main] does not raise.  If the checks return, the results
    are written to the result store and the exit code is 0, whatever the
    output format; if a check raises, the exit code is 1, the error is
    logged and printed, and nothing is written. *)
Theorem main_exit_code E a w c first addr :
  configure a = false →
  value (new_EmailCounter E w) = Return c →
  getitem0 (accounts c) = Return first →
  get first "email" = Return addr →
  eq_str addr placeholder_email = false →
  let built := new_EmailCounter E w in
  let checked := check_all_accounts E c (after built) in
  let r := main E a w in
  match value checked with
  | Return (_, results) =>
      value r = Return 0
      ∧ fs (after r)
        = <[RESULTS_PATH E :=
              FJson (result_document
                       (isoformat E (clock E (ticks (after checked))))
                       (loaded_counts results))]> (fs (after checked))
  | Raise e =>
      value r = Return 1
      ∧ after r = after checked
      ∧ emitted r
        = emitted built ++ emitted checked
            ++ [EvLog ERROR "Unexpected error: {str(e)}";
                EvPrintExn "Error occurred: " e]
  end.
Proof.
  intros Hc Hb H0 He Hp built checked r. subst built checked r.
  unfold main. rewrite Hc.
  destruct (new_EmailCounter E w) as [w1 evs1 r1] eqn:Hn; simpl in Hb. subst r1.
  rewrite (bind_return _ _ _ _ _ _ Hn). cbn [after emitted value].
  rewrite H0, bind_lift, He, bind_lift.
  unfold placeholder_email in Hp. rewrite Hp.
  destruct (check_all_accounts E c w1) as [w2 evs2 [[c' results]|e]] eqn:Hk;
    cbn [after emitted value].
  - match goal with |- context [try_except ?m ?h w1] =>
      assert (Hm : ∃ w3 evs3, m w1 = Reply w3 evs3 (Return 0)
                 ∧ fs w3 = <[RESULTS_PATH E :=
              FJson (result_document (isoformat E (clock E (ticks w2)))
                       (loaded_counts results))]> (fs w2)) end.
    { rewrite (bind_return _ _ _ _ _ _ Hk). cbn [snd].
      rewrite (bind_return _ _ _ _ _ _ (save_results_eq E results w2)).
      destruct (output_json a); [|destruct (output_text a || negb false)].
      - eexists _, _. split; [reflexivity|done].
      - rewrite bind_assoc, (bind_return (print _) _ _ _ _ _ eq_refl). cbv beta.
        rewrite bind_assoc, (bind_return _ _ _ _ _ _ (print_counts_lines _ _)).
        run_monad. eexists _, _. split; [reflexivity|done].
      - eexists _, _. split; [reflexivity|done]. }
    destruct Hm as (w3 & evs3 & Hm & Hfs).
    rewrite (try_return _ _ _ _ _ _ Hm). by simpl.
  - rewrite (try_raise _ _ _ _ _ _ (bind_raise _ _ _ _ _ _ Hk)). simpl.
    done.
Qed.

(** What a run that checks the accounts adds to the output of the checks:
    the result file is written and made readable (mode 0o644), and then
    either the document is printed as JSON, when --output-json is given
    (--output-text is then ignored), or the listing is printed, one line
    per account in the order of the results, a negative count shown as an
    error.  The time printed is read from the clock after the one that was
    saved. *)
Theorem main_output E a w c first addr c' results :
  configure a = false →
  value (new_EmailCounter E w) = Return c →
  getitem0 (accounts c) = Return first →
  get first "email" = Return addr →
  eq_str addr placeholder_email = false →
  let built := new_EmailCounter E w in
  let checked := check_all_accounts E c (after built) in
  value checked = Return (c', results) →
  let printed := clock E (S (ticks (after checked))) in
  emitted (main E a w)
  = emitted built ++ emitted checked
    ++ [EvChmod (RESULTS_PATH E) 420;
        EvLog INFO "Results saved to {RESULTS_PATH}"]
    ++ (if output_json a then
          [EvPrintJson (result_document (isoformat E printed)
                          (written_counts results))]
        else
          EvPrint "--- Email Inbox Counts ---"
            :: map (λ kv, EvPrint (status_line (str_key (fst kv)) (snd kv)))
                 results
            ++ [EvPrint ("Last checked: " +:+ strftime E (naive printed))]).
Proof.
  intros Hc Hb H0 He Hp built checked Hv printed. subst built checked printed.
  unfold main. rewrite Hc.
  destruct (new_EmailCounter E w) as [w1 evs1 r1] eqn:Hn; simpl in Hb. subst r1.
  rewrite (bind_return _ _ _ _ _ _ Hn). cbn [after emitted value] in *.
  rewrite H0, bind_lift, He, bind_lift.
  unfold placeholder_email in Hp. rewrite Hp.
  destruct (check_all_accounts E c w1) as [w2 evs2 r2] eqn:Hk;
    cbn [after emitted value] in *. subst r2.
  match goal with |- context [try_except ?m ?h w1] =>
    assert (Hm : ∃ w3, m w1
      = Reply w3
          (evs2
           ++ [EvChmod (RESULTS_PATH E) 420;
               EvLog INFO "Results saved to {RESULTS_PATH}"]
           ++ (if output_json a then
                 [EvPrintJson
                    (result_document (isoformat E (clock E (S (ticks w2))))
                       (written_counts results))]
               else
                 EvPrint "--- Email Inbox Counts ---"
                   :: map (λ kv, EvPrint (status_line (str_key (fst kv))
                                            (snd kv)))
                        results
                   ++ [EvPrint ("Last checked: "
                                +:+ strftime E
                                      (naive (clock E (S (ticks w2)))))]))
          (Return 0))
  end.
  { rewrite (bind_return _ _ _ _ _ _ Hk). cbn [snd].
    rewrite (bind_return _ _ _ _ _ _ (save_results_eq E results w2)).
    destruct (output_json a); [|rewrite orb_true_r].
    - eexists. reflexivity.
    - rewrite bind_assoc, (bind_return (print _) _ _ _ _ _ eq_refl). cbv beta.
      rewrite bind_assoc, (bind_return _ _ _ _ _ _ (print_counts_lines _ _)).
      run_monad. eexists. reflexivity. }
  destruct Hm as (w3 & Hm).
  by rewrite (try_return _ _ _ _ _ _ Hm).
Qed.

End ExitCode.

Lemma configure_never_checks_witness :
  let r := email_check.main sample.quiet (email_check.Args false false true)
             (sample.configured sample.quiet [sample.work; sample.icloud]) in
  Forall (λ ev, account_event ev = true →
                ev = EvPrompt ∨ ∃ addr, ev = EvKeyringSet addr) (emitted r)
  ∧ ∀ code, value r = Return code → code = 0.
Proof.
  apply (configure_never_checks sample.quiet). reflexivity.
Defined.

Lemma empty_config_raises_witness :
  let w := sample.configured sample.quiet [] in
  let r := email_check.main sample.quiet (email_check.Args false false false) w in
  value r = Raise IndexError
  ∧ emitted r = emitted (email_check.new_EmailCounter sample.quiet w)
  ∧ after r = after (email_check.new_EmailCounter sample.quiet w).
Proof.
  intros w.
  apply (empty_config_raises sample.quiet (email_check.Args false false false) w);
    reflexivity.
Defined.

(** Two accounts, both checks return: exit code 0. *)
Lemma main_exit_code_witness :
  value (email_check.main sample.quiet (email_check.Args false false false)
           (sample.configured sample.quiet [sample.work; sample.icloud]))
  = Return 0.
Proof.
  exact (proj1 (main_exit_code sample.quiet (email_check.Args false false false)
                  (sample.configured sample.quiet [sample.work; sample.icloud])
                  (sample.counter sample.quiet) sample.work
                  (JStr "me@example.org")
                  eq_refl eq_refl eq_refl eq_refl eq_refl)).
Defined.

(** The same run with --output-json: one JSON line after the checks. *)
Lemma main_output_witness :
  let w := sample.configured sample.quiet [sample.work; sample.icloud] in
  let c := sample.counter sample.quiet in
  emitted (email_check.main sample.quiet (email_check.Args true false false) w)
  = emitted (email_check.new_EmailCounter sample.quiet w)
    ++ emitted (email_check.check_all_accounts sample.quiet c w)
    ++ [EvChmod (email_check.RESULTS_PATH sample.quiet) 420;
        EvLog INFO "Results saved to {RESULTS_PATH}";
        EvPrintJson
          (email_check.result_document sample.stamp
             [("Work", JInt 2); ("iCloud", JInt 3)])].
Proof.
  intros w c.
  exact (main_output sample.quiet (email_check.Args true false false) w c
           sample.work (JStr "me@example.org")
           (email_check.MkEmailCounter (email_check.CONFIG_PATH sample.quiet)
              (JList [sample.work; sample.icloud])
              [(KStr "Work",
                email_check.Gmail
                  (email_check.MkGmailHandler (JStr "Work")
                     (JStr "me@example.org") true));
               (KStr "iCloud", email_check.Imap sample.icloud)])
           [(KStr "Work", 2); (KStr "iCloud", 3)]
           eq_refl eq_refl eq_refl eq_refl eq_refl eq_refl).
Defined.

(** ** The result store, written again *)

(** The result store keeps no history: after two runs of [save_results]
    the file holds the document of the second run alone, and every other
    file is as it was. *)
Theorem save_results_overwrites E first second w :
  let w1 := after (email_check.save_results E first w) in
  let w2 := after (email_check.save_results E second w1) in
  fs w2
  = <[email_check.RESULTS_PATH E :=
        FJson (email_check.result_document (isoformat E (clock E (ticks w1)))
                 (loaded_counts second))]> (fs w)
  ∧ ∀ path, path ≠ email_check.RESULTS_PATH E → fs w2 !! path = fs w !! path.
Proof.
  intros w1 w2. subst w1 w2. rewrite !save_results_fs.
  rewrite insert_insert_eq. split; [done|].
  intros path Hp. by rewrite lookup_insert_ne.
Qed.

(** ** Computations that read no file *)

Lemma reads_no_file_ret {A} (a : A) : reads_no_file (ret a).
Proof. by intros w1 w2 Ht. Qed.

Lemma reads_no_file_lift {A} (r : result A) : reads_no_file (lift r).
Proof. by intros w1 w2 Ht. Qed.

Lemma reads_no_file_emit e : reads_no_file (emit e).
Proof. by intros w1 w2 Ht. Qed.

Lemma reads_no_file_now E : reads_no_file (now E).
Proof. intros w1 w2 Ht. simpl. by rewrite Ht. Qed.

Lemma reads_no_file_bind {A B} (m : M A) (k : A → M B) :
  reads_no_file m → (∀ a, reads_no_file (k a)) → reads_no_file (bind m k).
Proof.
  intros Hm Hk w1 w2 Ht. unfold bind.
  destruct (Hm w1 w2 Ht) as (He & Hv & Ha).
  destruct (m w1) as [u1 e1 r1], (m w2) as [u2 e2 r2]; simpl in *. subst.
  destruct r2 as [a|e]; [|done].
  destruct (Hk a u1 u2 Ha) as (He' & Hv' & Ha').
  destruct (k a u1), (k a u2); simpl in *. by subst.
Qed.

Lemma reads_no_file_try_except {A} (m : M A) (h : exn → M A) :
  reads_no_file m → (∀ e, reads_no_file (h e)) → reads_no_file (try_except m h).
Proof.
  intros Hm Hh w1 w2 Ht. unfold try_except.
  destruct (Hm w1 w2 Ht) as (He & Hv & Ha).
  destruct (m w1) as [u1 e1 r1], (m w2) as [u2 e2 r2]; simpl in *. subst.
  destruct r2 as [a|e]; [done|].
  destruct (Hh e u1 u2 Ha) as (He' & Hv' & Ha').
  destruct (h e u1), (h e u2); simpl in *. by subst.
Qed.

Lemma reads_no_file_for_each {A} (l : list A) (body : A → M unit) :
  (∀ x, reads_no_file (body x)) → reads_no_file (for_each l body).
Proof.
  intros Hb. induction l as [|x l IH]; simpl.
  - apply reads_no_file_ret.
  - by apply reads_no_file_bind.
Qed.

Ltac no_file_step :=
  first
    [ apply reads_no_file_ret | apply reads_no_file_lift
    | apply reads_no_file_emit | apply reads_no_file_now
    | apply reads_no_file_bind; [|intros ?]
    | apply reads_no_file_try_except; [|intros ?]
    | apply reads_no_file_for_each; intros ?
    | match goal with
      | |- reads_no_file (if ?b then _ else _) => destruct b
      | |- reads_no_file (match ?x with _ => _ end) => destruct x
      | |- reads_no_file (let _ := _ in _) => cbv zeta
      end ].

(** Loading a file with the same content from another path, and going on
    without reading a file, does the same. *)
Lemma load_elsewhere {A} p1 p2 w1 w2 (k : json → M A) (h : exn → M A) :
  fs w1 !! p1 = fs w2 !! p2 → ticks w1 = ticks w2 →
  (∀ d, reads_no_file (k d)) → (∀ e, reads_no_file (h e)) →
  emitted (try_except (bind (json_load p1) k) h w1)
  = emitted (try_except (bind (json_load p2) k) h w2)
  ∧ value (try_except (bind (json_load p1) k) h w1)
    = value (try_except (bind (json_load p2) k) h w2).
Proof.
  intros Hf Ht Hk Hh.
  assert (Hl : ∀ p w, json_load p w
                 = Reply w [] match fs w !! p with
                              | Some (FJson j) => Return j
                              | Some FInvalid => Raise JSONDecodeError
                              | Some FNotText => Raise UnicodeDecodeError
                              | None => Raise OSError
                              end) by done.
  unfold try_except, bind. rewrite !Hl, Hf.
  destruct (fs w2 !! p2) as [[j| |]|].
  - destruct (Hk j w1 w2 Ht) as (He & Hv & Ha).
    destruct (k j w1) as [u1 e1 r1], (k j w2) as [u2 e2 r2]; simpl in *. subst.
    destruct r2 as [a|e]; [done|].
    destruct (Hh e u1 u2 Ha) as (He' & Hv' & _).
    destruct (h e u1), (h e u2); simpl in *. by subst.
  - destruct (Hh JSONDecodeError w1 w2 Ht) as (He' & Hv' & _).
    destruct (h _ w1), (h _ w2); simpl in *. by subst.
  - destruct (Hh UnicodeDecodeError w1 w2 Ht) as (He' & Hv' & _).
    destruct (h _ w1), (h _ w2); simpl in *. by subst.
  - destruct (Hh OSError w1 w2 Ht) as (He' & Hv' & _).
    destruct (h _ w1), (h _ w2); simpl in *. by subst.
Qed.

(** ** Where the reporter reads *)

Section ReporterPaths.
Import show_status.

(** The reporter does not raise: whatever the flags, the files and the
    clock, [main] returns 0 or 1. *)
Theorem reporter_exit_code E a w :
  value (main E a w) = Return 0 ∨ value (main E a w) = Return 1.
Proof.
  cut (∃ code, value (main E a w) = Return code ∧ (code = 0 ∨ code = 1)).
  { intros (code & -> & [-> | ->]); eauto. }
  unfold main.
  assert (He : ∀ p, exists_ p w
                 = Reply w [] (Return (bool_decide (is_Some (fs w !! p)))))
    by done.
  rewrite (bind_pure _ _ _ _ (He _)).
  match goal with |- context [bind ?sel _ w] =>
    assert (Hs : ∃ p evs, sel w = Reply w evs (Return p))
  end.
  { destruct (negb _ && legacy_path a); [|by eexists _, _].
    rewrite (bind_pure _ _ _ _ (He _)).
    destruct (bool_decide _); by eexists _, _. }
  destruct Hs as (p & evs & Hs).
  rewrite (bind_return _ _ _ _ _ _ Hs), (bind_pure _ _ _ _ (He _)).
  cbn [value]. clear Hs.
  destruct (negb (bool_decide (is_Some (fs w !! p)))).
  - exists 1. split; [reflexivity | by right].
  - apply try_except_total.
    + intros c (data & w1 & Hc)%bind_value_inv.
      apply bind_value_inv in Hc as (timestamp & w2 & Hc).
      apply bind_value_inv in Hc as (counts & w3 & Hc).
      apply then_ret_value in Hc. by left.
    + intros e w'. exists 1. split; [reflexivity | by right].
Qed.

(** The fallback of --legacy-path: when the file is absent from the
    default path and present at the old location, the reporter prints the
    migration notice and then prints and returns what it would for the
    same file at the default path. *)
Theorem reporter_legacy_fallback E a w f :
  fs w !! RESULTS_PATH E = None →
  legacy_path a = true →
  fs w !! (home E // ".email_counter" // "last_results.json") = Some f →
  let moved := {| fs := <[RESULTS_PATH E := f]> (fs w); ticks := ticks w |} in
  emitted (main E a w)
  = EvPrint "Using legacy configuration path. Consider migrating to the new location."
      :: emitted (main E a moved)
  ∧ value (main E a w) = value (main E a moved).
Proof.
  intros Hnone Hl Hf moved.
  assert (Hm : fs moved !! RESULTS_PATH E = Some f) by apply lookup_insert_eq.
  unfold main.
  rewrite (bind_pure _ _ _ _ (exists_absent _ _ Hnone)).
  rewrite (bind_pure _ _ _ _ (exists_present _ _ _ Hm)).
  rewrite Hl. cbn [negb andb].
  rewrite (bind_pure (ret _) _ moved _ eq_refl).
  rewrite (bind_pure _ _ _ _ (exists_present _ _ _ Hm)). cbn [negb].
  match goal with |- context [bind ?sel ?k w] =>
    assert (Hs : sel w
                 = Reply w [EvPrint "Using legacy configuration path. Consider migrating to the new location."]
                     (Return (home E // ".email_counter" // "last_results.json")))
  end.
  { rewrite (bind_pure _ _ _ _ (exists_present _ _ _ Hf)). reflexivity. }
  rewrite (bind_return _ _ _ _ _ _ Hs).
  rewrite (bind_pure _ _ _ _ (exists_present _ _ _ Hf)). cbn [negb].
  cbn [emitted value app].
  match goal with |- context [try_except (bind (json_load _) ?k) ?h w] =>
    destruct (load_elsewhere (home E // ".email_counter" // "last_results.json")
                (RESULTS_PATH E) w moved k h) as [He Hv]
  end.
  - by rewrite Hf, Hm.
  - done.
  - intros d. unfold print_counts, format_time_ago, print. repeat no_file_step.
  - intros e. repeat no_file_step.
  - by rewrite He, Hv.
Qed.

(** When the file is at the default path, --legacy-path changes nothing:
    two runs that agree on --json do the same. *)
Theorem reporter_prefers_primary_path E a a' w :
  is_Some (fs w !! RESULTS_PATH E) →
  json_flag a = json_flag a' →
  main E a w = main E a' w.
Proof.
  intros [f Hf] Hj. unfold main.
  rewrite !(bind_pure _ _ _ _ (exists_present _ _ _ Hf)). cbn [negb andb].
  by rewrite Hj.
Qed.

(** A file that does not hold a JSON object is reported in one line, with
    exit code 1, in both output modes: the decoder's error for text that is
    not JSON, UnicodeDecodeError for bytes that are not text,
    AttributeError for a JSON value without [get]. *)
Theorem reporter_rejects_other_files E a w f :
  fs w !! RESULTS_PATH E = Some f →
  (∀ d, f ≠ FJson (JDict d)) →
  main E a w
  = Reply w [EvPrintExn "Error reading email status: "
               match f with
               | FInvalid => JSONDecodeError
               | FNotText => UnicodeDecodeError
               | FJson _ => AttributeError
               end]
      (Return 1).
Proof.
  intros Hf Hd. unfold main.
  rewrite (bind_pure _ _ _ _ (exists_present _ _ _ Hf)). cbn [negb andb].
  rewrite (bind_pure (ret _) _ _ _ eq_refl).
  rewrite (bind_pure _ _ _ _ (exists_present _ _ _ Hf)). cbn [negb].
  unfold json_load. run_monad. rewrite Hf.
  destruct f as [[]| |]; try done. by destruct (Hd d).
Qed.

(** With --json the stored object is printed as it is and the exit code is
    0, whatever its members are; the clock is not read. *)
Theorem reporter_json_prints_stored_document E a w d :
  fs w !! RESULTS_PATH E = Some (FJson (JDict d)) →
  json_flag a = true →
  main E a w = Reply w [EvPrintJson (JDict d)] (Return 0).
Proof.
  intros Hf Hj. unfold main.
  rewrite (bind_pure _ _ _ _ (exists_present _ _ _ Hf)). cbn [negb andb].
  rewrite (bind_pure (ret _) _ _ _ eq_refl).
  rewrite (bind_pure _ _ _ _ (exists_present _ _ _ Hf)). cbn [negb].
  unfold json_load. run_monad. rewrite Hf, Hj. simpl.
  destruct (assoc "timestamp" d); simpl; by destruct (assoc "counts" d).
Qed.

End ReporterPaths.

Lemma reporter_legacy_fallback_witness :
  let E := sample.quiet in
  let a := show_status.Args false true in
  emitted (show_status.main E a (sample.legacy E))
  = EvPrint "Using legacy configuration path. Consider migrating to the new location."
      :: emitted (show_status.main E a (sample.reported E))
  ∧ value (show_status.main E a (sample.legacy E))
    = value (show_status.main E a (sample.reported E)).
Proof.
  intros E a.
  destruct (reporter_legacy_fallback E a (sample.legacy E) (FJson sample.stored))
    as [He Hv]; [reflexivity..|].
  split; [rewrite He | rewrite Hv]; reflexivity.
Defined.

Lemma reporter_prefers_primary_path_witness :
  show_status.main sample.quiet (show_status.Args false true)
    (sample.reported sample.quiet)
  = show_status.main sample.quiet (show_status.Args false false)
      (sample.reported sample.quiet).
Proof.
  apply reporter_prefers_primary_path; [|reflexivity].
  exists (FJson sample.stored). apply lookup_singleton_eq.
Defined.

Lemma reporter_rejects_other_files_witness :
  show_status.main sample.quiet (show_status.Args false false)
    (sample.unreadable sample.quiet)
  = Reply (sample.unreadable sample.quiet)
      [EvPrintExn "Error reading email status: " JSONDecodeError] (Return 1).
Proof.
  apply (reporter_rejects_other_files sample.quiet (show_status.Args false false)
           (sample.unreadable sample.quiet) FInvalid);
    [apply lookup_singleton_eq | discriminate].
Defined.

Lemma reporter_json_prints_stored_document_witness :
  show_status.main sample.quiet (show_status.Args true false)
    (sample.reported sample.quiet)
  = Reply (sample.reported sample.quiet) [EvPrintJson sample.stored] (Return 0).
Proof.
  apply reporter_json_prints_stored_document;
    [apply lookup_singleton_eq | reflexivity].
Defined.

(** ** The listing of the reporter *)

Section ReporterListing.
Import show_status.

Lemma print_counts_written results w :
  print_counts (written_counts results) w
  = Reply w (map (λ kv, EvPrint (status_line (json_key (fst kv)) (snd kv)))
               results)
      (Return tt).
Proof.
  unfold print_counts, written_counts.
  induction results as [|[k n] l IH]; [done|].
  cbn [map for_each fst snd ge0]. rewrite bind_assoc, bind_lift.
  unfold status_line.
  destruct (0 <=? n);
    by rewrite (bind_return (print _) _ _ _ _ _ eq_refl), IH.
Qed.

(** A document as the checker writes it (a timestamp and integer counts)
    is listed in full: the header, one line per account in the stored
    order, a failed check (-1, or any negative count) shown as an error,
    then the time elapsed up to now and the stored time; the exit code is
    0. *)
Theorem reporter_lists_saved_counts E a w ts t results :
  fs w !! RESULTS_PATH E
  = Some (FJson (email_check.result_document ts (written_counts results))) →
  json_flag a = false →
  ts ≠ "" →
  fromisoformat E ts = Return (naive t) →
  value (main E a w) = Return 0
  ∧ emitted (main E a w)
    = EvPrint "--- Email Inbox Status ---"
        :: map (λ kv, EvPrint (status_line (json_key (fst kv)) (snd kv)))
             results
        ++ [EvPrint ("Last checked: "
                     +:+ format_diff
                           (timedelta_of_us (clock E (ticks w) - t)));
            EvPrint ("Exact time: " +:+ strftime E (naive t))].
Proof.
  intros Hf Hj Hts%String.eqb_neq Hiso. unfold main.
  rewrite (bind_pure _ _ _ _ (exists_present _ _ _ Hf)). cbn [negb andb].
  rewrite (bind_pure (ret _) _ _ _ eq_refl).
  rewrite (bind_pure _ _ _ _ (exists_present _ _ _ Hf)). cbn [negb].
  assert (Hl : json_load (RESULTS_PATH E) w
               = Reply w [] (Return (email_check.result_document ts
                                       (written_counts results)))).
  { unfold json_load. by rewrite Hf. }
  match goal with |- context [try_except ?m ?h w] =>
    assert (Hm : m w
      = Reply {| fs := fs w; ticks := S (ticks w) |}
          (EvPrint "--- Email Inbox Status ---"
             :: map (λ kv, EvPrint (status_line (json_key (fst kv)) (snd kv)))
                  results
             ++ [EvPrint ("Last checked: "
                          +:+ format_diff
                                (timedelta_of_us (clock E (ticks w) - t)));
                 EvPrint ("Exact time: " +:+ strftime E (naive t))])
          (Return 0))
  end.
  { rewrite (bind_pure _ _ _ _ Hl).
    change (get (email_check.result_document ts (written_counts results))
              "timestamp") with (Return (JStr ts)).
    rewrite bind_lift.
    change (get_default (email_check.result_document ts (written_counts results))
              "counts" (JDict [])) with (Return (JDict (written_counts results))).
    rewrite bind_lift, Hj.
    rewrite bind_assoc, (bind_return (print _) _ _ _ _ _ eq_refl).
    cbv beta. cbn [items]. rewrite bind_assoc, bind_lift. cbv beta.
    rewrite bind_assoc.
    rewrite (bind_return _ _ _ _ _ _ (print_counts_written results w)).
    unfold format_time_ago, truthy. rewrite Hts. cbn [negb parse_timestamp].
    rewrite Hiso. by run_monad. }
  by rewrite (try_return _ _ _ _ _ _ Hm).
Qed.

Lemma print_counts_good entries :
  Forall (λ kv, is_return (ge0 (snd kv)) = true) entries →
  ∃ evs, ∀ w, print_counts entries w = Reply w evs (Return tt).
Proof.
  unfold print_counts. induction 1 as [|[name count] l Hc _ [evs IH]];
    [by exists []|].
  cbn [for_each fst snd] in *. apply total_value in Hc as [b ->].
  destruct b; eexists (_ :: evs); intros w;
    by rewrite bind_assoc, bind_lift,
         (bind_return (print _) _ _ _ _ _ eq_refl), IH.
Qed.

Lemma print_counts_stops pre name bad post e evs w :
  (∀ w', print_counts pre w' = Reply w' evs (Return tt)) →
  ge0 bad = Raise e →
  print_counts (pre ++ (name, bad) :: post) w = Reply w evs (Raise e).
Proof.
  unfold print_counts. intros Hp Hbad.
  rewrite for_each_app, (bind_return _ _ _ _ _ _ (Hp w)).
  cbn [for_each fst snd]. rewrite Hbad. run_monad. by rewrite app_nil_r.
Qed.

(** A count that cannot be compared with 0 ends the listing where it
    stands: the header and the lines of the entries before it stay
    printed, the error is printed after them, no later entry and no time is
    shown, and the exit code is 1. *)
Theorem reporter_stops_at_bad_count E a w d pre name bad post e :
  fs w !! RESULTS_PATH E = Some (FJson (JDict d)) →
  json_flag a = false →
  assoc "counts" d = Some (JDict (pre ++ (name, bad) :: post)) →
  Forall (λ kv, is_return (ge0 (snd kv)) = true) pre →
  ge0 bad = Raise e →
  value (main E a w) = Return 1
  ∧ emitted (main E a w)
    = EvPrint "--- Email Inbox Status ---"
        :: emitted (print_counts pre w)
        ++ [EvPrintExn "Error reading email status: " e].
Proof.
  intros Hf Hj Hc Hpre Hbad. unfold main.
  rewrite (bind_pure _ _ _ _ (exists_present _ _ _ Hf)). cbn [negb andb].
  rewrite (bind_pure (ret _) _ _ _ eq_refl).
  rewrite (bind_pure _ _ _ _ (exists_present _ _ _ Hf)). cbn [negb].
  assert (Hl : json_load (RESULTS_PATH E) w = Reply w [] (Return (JDict d))).
  { unfold json_load. by rewrite Hf. }
  destruct (print_counts_good pre Hpre) as [evs Hp]. rewrite Hp.
  match goal with |- context [try_except ?m ?h w] =>
    assert (Hm : m w
      = Reply w (EvPrint "--- Email Inbox Status ---" :: evs) (Raise e))
  end.
  { rewrite (bind_pure _ _ _ _ Hl). unfold get, get_default. rewrite Hc, Hj.
    destruct (assoc "timestamp" d); rewrite !bind_lift;
      rewrite bind_assoc, (bind_return (print _) _ _ _ _ _ eq_refl);
      cbv beta; cbn [items]; rewrite bind_assoc, bind_lift; cbv beta;
      rewrite bind_assoc,
        (bind_raise _ _ _ _ _ _ (print_counts_stops _ _ _ _ _ _ _ Hp Hbad));
      reflexivity. }
  rewrite (try_raise _ _ _ _ _ _ Hm). simpl.
  done.
Qed.

End ReporterListing.

Lemma reporter_lists_saved_counts_witness :
  let r := show_status.main sample.quiet (show_status.Args false false)
             (sample.reported sample.quiet) in
  value r = Return 0
  ∧ emitted r
    = [EvPrint "--- Email Inbox Status ---"; EvPrint "Work: 3 unread";
       EvPrint "Last checked: 0 seconds ago";
       EvPrint "Exact time: 2024-05-01 12:00:00"].
Proof.
  intros r.
  destruct (reporter_lists_saved_counts sample.quiet
              (show_status.Args false false) (sample.reported sample.quiet)
              sample.stamp sample.t0 [(KStr "Work", 3)])
    as [Hv He]; [apply lookup_singleton_eq | reflexivity | discriminate
                | reflexivity |].
  split; [exact Hv | exact He].
Defined.

Lemma reporter_stops_at_bad_count_witness :
  let r := show_status.main sample.quiet (show_status.Args false false)
             (sample.garbled_report sample.quiet) in
  value r = Return 1
  ∧ emitted r
    = [EvPrint "--- Email Inbox Status ---"; EvPrint "Work: 3 unread";
       EvPrintExn "Error reading email status: " TypeError].
Proof.
  intros r.
  destruct (reporter_stops_at_bad_count sample.quiet
              (show_status.Args false false)
              (sample.garbled_report sample.quiet) sample.garbled
              [("Work", JInt 3)] "iCloud" (JStr "n/a") [] TypeError)
    as [Hv He]; [apply lookup_singleton_eq | reflexivity | reflexivity
                | repeat constructor | reflexivity |].
  split; [exact Hv | exact He].
Defined.

(** ** Relative time, in general *)

(** For a naive stored timestamp [format_time_ago] reports the whole
    number [n] of the largest unit that the elapsed time holds: seconds
    below a minute, minutes below an hour, hours below a day, days from
    there on; it writes the unit in the singular when [n] is 1, except for
    days, which are always written "days". *)
Theorem format_time_ago_units E ts t w n :
  fromisoformat E ts = Return (naive t) →
  let span := clock E (ticks w) - t in
  let says (text : string) :=
    value (show_status.format_time_ago E (JStr ts) w) = Return text in
  let plural := if n =? 1 then "" else "s" in
  (0 ≤ n < 60 → secs n ≤ span < secs (n + 1) →
   says (str_int n +:+ " second" +:+ plural +:+ " ago"))
  ∧ (1 ≤ n < 60 → mins n ≤ span < mins (n + 1) →
     says (str_int n +:+ " minute" +:+ plural +:+ " ago"))
  ∧ (1 ≤ n < 24 → hrs n ≤ span < hrs (n + 1) →
     says (str_int n +:+ " hour" +:+ plural +:+ " ago"))
  ∧ (1 ≤ n → dys n ≤ span < dys (n + 1) →
     says (str_int n +:+ " days ago")).
Proof.
  intros Hts span says plural. subst span says plural. cbv beta.
  rewrite (format_time_ago_naive E ts t w Hts).
  repeat split; intros Hn Hs; f_equal.
  - by apply format_diff_seconds.
  - by apply format_diff_minutes.
  - by apply format_diff_hours.
  - by apply format_diff_days.
Qed.

(** A stored timestamp that lies ahead of the clock by up to an hour is
    reported as "23 hours ago": the difference is negative, its [days] is
    -1 and its [seconds] count up from the day before. *)
Theorem format_time_ago_future E ts t w :
  fromisoformat E ts = Return (naive t) →
  - hrs 1 ≤ clock E (ticks w) - t < 0 →
  value (show_status.format_time_ago E (JStr ts) w) = Return "23 hours ago".
Proof.
  intros Hts Hs. rewrite (format_time_ago_naive E ts t w Hts). f_equal.
  set (us := clock E (ticks w) - t) in *.
  unfold hrs, secs, us_per_second in Hs.
  unfold show_status.format_diff.
  assert (Hd : days (timedelta_of_us us) = -1).
  { apply timedelta_of_us_days. unfold us_per_day, us_per_second. lia. }
  assert (Hsec : 82800 ≤ seconds (timedelta_of_us us) < 86400).
  { unfold timedelta_of_us, us_per_day, us_per_second. simpl.
    replace (us mod (86400 * 1000000)) with (us + 86400000000)
      by (apply (Z.mod_unique_pos us (86400 * 1000000) (-1)); lia).
    split.
    - apply Z.div_le_lower_bound; lia.
    - apply Z.div_lt_upper_bound; lia. }
  rewrite Hd. simpl (0 <? -1).
  replace (3600 <=? seconds (timedelta_of_us us)) with true by lia.
  replace (seconds (timedelta_of_us us) / 3600) with 23
    by (apply (Z.div_unique_pos _ 3600 23
                 (seconds (timedelta_of_us us) - 3600 * 23)); lia).
  reflexivity.
Qed.

Lemma format_time_ago_units_witness :
  value (show_status.format_time_ago
           (sample.environment (sample.standing (sample.t0 + hrs 2))
              sample.gmail_ok sample.imap_ok)
           (JStr sample.stamp) sample.empty_world)
  = Return "2 hours ago".
Proof.
  destruct (format_time_ago_units
              (sample.environment (sample.standing (sample.t0 + hrs 2))
                 sample.gmail_ok sample.imap_ok)
              sample.stamp sample.t0 sample.empty_world 2 eq_refl)
    as (_ & _ & Hh & _).
  apply Hh; vm_compute; split; discriminate || reflexivity.
Defined.

Lemma format_time_ago_future_witness :
  value (show_status.format_time_ago
           (sample.environment (sample.standing (sample.t0 - secs 1))
              sample.gmail_ok sample.imap_ok)
           (JStr sample.stamp) sample.empty_world)
  = Return "23 hours ago".
Proof.
  apply (format_time_ago_future _ sample.stamp sample.t0).
  - reflexivity.
  - vm_compute. split; discriminate || reflexivity.
Defined.
